(** * Hotel data merging: a shallow embedding of main.py

    The program fetches hotel descriptions from three suppliers, turns each
    raw JSON record into a [Hotel], merges the records that share an id, and
    answers queries by hotel id and destination id.  This file embeds the
    adapters' [parse], the field reducers of [HotelsService] and [find], and
    proves the properties the specification states about them. *)

From Stdlib Require Import ZArith Ascii String DecimalString Sorted.
From stdpp Require Import base option list strings gmap sets sorting.

Set Warnings "-register-all".
Local Open Scope string_scope.
Local Open Scope nat_scope.
Local Open Scope list_scope.

(** ** Python values

    The values the program handles come out of [json.loads]: null, booleans,
    integers, floats, text, arrays and objects.  A Python [str] is a sequence
    of code points; the model keeps the code points below 256, one [ascii]
    each.  A float is kept as the text Python prints for it, the only thing
    the program ever asks of one. *)

Inductive value : Type :=
  | VNone
  | VBool (b : bool)
  | VInt (z : Z)
  | VFloat (repr : string)
  | VStr (s : string)
  | VList (l : list value)
  | VDict (d : list (string * value)).

(** [x is None] *)
Definition is_None (v : value) : bool :=
  match v with VNone => true | _ => false end.

(** Exceptions the embedded code can raise. *)
Inductive exn : Type := KeyError | TypeError | AttributeError.

Inductive result (A : Type) : Type :=
  | Ok (a : A)
  | Raise (e : exn).
Arguments Ok {A} a.
Arguments Raise {A} e.

#[global] Instance result_ret : MRet result := fun _ a => Ok a.
#[global] Instance result_bind : MBind result := fun _ _ k m =>
  match m with Ok a => k a | Raise e => Raise e end.

#[global] Instance result_fmap : FMap result := fun _ _ f m =>
  match m with Ok a => Ok (f a) | Raise e => Raise e end.

(** A comprehension [[f(x) for x in xs]]: the first exception aborts it. *)
Fixpoint traverse {A B} (f : A → result B) (xs : list A) : result (list B) :=
  match xs with
  | [] => Ok []
  | x :: xs' => y ← f x; ys ← traverse f xs'; Ok (y :: ys)
  end.

(** ** Text: [str()], [repr()], [strip], [lower], [split] *)

Module Text.

Definition code (c : ascii) : nat := nat_of_ascii c.

(** [c.islower()] and [c.isupper()] for one code point below 256. *)
Definition islower (c : ascii) : bool :=
  let n := code c in
  (97 <=? n) && (n <=? 122) || (n =? 170) || (n =? 181) || (n =? 186)
  || (223 <=? n) && (n <=? 246) || (248 <=? n) && (n <=? 255).

Definition isupper (c : ascii) : bool :=
  let n := code c in
  (65 <=? n) && (n <=? 90) || (192 <=? n) && (n <=? 214)
  || (216 <=? n) && (n <=? 222).

(** Characters [str.strip()] removes. *)
Definition isspace (c : ascii) : bool :=
  let n := code c in
  (9 <=? n) && (n <=? 13) || (28 <=? n) && (n <=? 32) || (n =? 133)
  || (n =? 160).

Definition lower_char (c : ascii) : ascii :=
  if isupper c then ascii_of_nat (code c + 32) else c.

Fixpoint lower (s : string) : string :=
  match s with
  | "" => ""
  | String c s' => String (lower_char c) (lower s')
  end.

Fixpoint lstrip (s : string) : string :=
  match s with
  | "" => ""
  | String c s' => if isspace c then lstrip s' else s
  end.

(** Drops the trailing white space: a character is kept when something
    survives after it or when it is not white space itself. *)
Fixpoint rstrip (s : string) : string :=
  match s with
  | "" => ""
  | String c s' =>
      match rstrip s' with
      | "" => if isspace c then "" else String c ""
      | t => String c t
      end
  end.

Definition strip (s : string) : string := rstrip (lstrip s).

(** [s.split(sep)] for a one-character separator. *)
Fixpoint split_on (sep : ascii) (s : string) : list string :=
  match s with
  | "" => [""]
  | String c s' =>
      if Ascii.eqb c sep then "" :: split_on sep s'
      else match split_on sep s' with
           | w :: ws => String c w :: ws
           | [] => [String c ""]
           end
  end.

Fixpoint join (sep : string) (ws : list string) : string :=
  match ws with
  | [] => ""
  | [w] => w
  | w :: ws' => w +:+ sep +:+ join sep ws'
  end.

Fixpoint contains (c : ascii) (s : string) : bool :=
  match s with
  | "" => false
  | String d s' => Ascii.eqb c d || contains c s'
  end.

Definition hex_digit (n : nat) : ascii :=
  ascii_of_nat (if n <? 10 then 48 + n else 87 + n).

Definition isprintable (c : ascii) : bool :=
  let n := code c in
  (32 <=? n) && (n <=? 126) || (161 <=? n) && negb (n =? 173).

(** One character inside [repr(s)], [q] being the quote chosen. *)
Definition escape (q c : ascii) : string :=
  let n := code c in
  if Ascii.eqb c "\" then "\\"
  else if Ascii.eqb c q then String "\" (String q "")
  else if n =? 9 then "\t"
  else if n =? 10 then "\n"
  else if n =? 13 then "\r"
  else if isprintable c then String c ""
  else String "\" (String "x"
         (String (hex_digit (n / 16)) (String (hex_digit (n mod 16)) ""))).

Fixpoint escape_all (q : ascii) (s : string) : string :=
  match s with
  | "" => ""
  | String c s' => escape q c +:+ escape_all q s'
  end.

Definition dquote : ascii := ascii_of_nat 34.

(** [repr(s)]: single quotes, unless the text has one and no double
    quote. *)
Definition repr (s : string) : string :=
  let q : ascii :=
    if contains "'" s && negb (contains dquote s) then dquote else "'"%char in
  String q (escape_all q s) +:+ String q "".

(** [str(z)] for an integer. *)
Definition of_Z (z : Z) : string := NilZero.string_of_int (Z.to_int z).

End Text.

(** [repr(v)] *)
Fixpoint py_repr (v : value) : string :=
  match v with
  | VNone => "None"
  | VBool true => "True"
  | VBool false => "False"
  | VInt z => Text.of_Z z
  | VFloat r => r
  | VStr s => Text.repr s
  | VList l => "[" +:+ Text.join ", " (map py_repr l) +:+ "]"
  | VDict d =>
      "{" +:+ Text.join ", "
                (map (fun kv => Text.repr (fst kv) +:+ ": " +:+ py_repr (snd kv)) d)
          +:+ "}"
  end.

(** [str(v)] *)
Definition py_str (v : value) : string :=
  match v with VStr s => s | _ => py_repr v end.

(** ** Subscripts and iteration on JSON values *)

(** A JSON object is kept as its list of entries, one per key. *)
Fixpoint dict_get (d : list (string * value)) (k : string) : option value :=
  match d with
  | [] => None
  | (k', v) :: d' => if String.eqb k' k then Some v else dict_get d' k
  end.

(** [v[k]] for a text key [k]: only a dict can be subscripted by text. *)
Definition getitem (v : value) (k : string) : result value :=
  match v with
  | VDict d => match dict_get d k with Some x => Ok x | None => Raise KeyError end
  | _ => Raise TypeError
  end.

Definition chars (s : string) : list string :=
  map (fun c => String c "") (list_ascii_of_string s).

(** [for x in v]: a list gives its elements, a text its characters, a dict
    its keys; nothing else can be iterated. *)
Definition iterate (v : value) : result (list value) :=
  match v with
  | VList l => Ok l
  | VStr s => Ok (map VStr (chars s))
  | VDict d => Ok (map (fun kv => VStr (fst kv)) d)
  | _ => Raise TypeError
  end.

(** [v.items()] *)
Definition items (v : value) : result (list (string * value)) :=
  match v with
  | VDict d => Ok d
  | _ => Raise AttributeError
  end.

(** ** The dataclasses *)

Module Location.
Record t : Type := mk
  { lat : value; lng : value; address : value; city : value; country : value }.
End Location.

Module Amenities.
Record t : Type := mk { general : value; room : value }.
End Amenities.

(** The image lists hold dicts with a [link] and a [description] entry, as
    the adapters build them. *)
Module Images.
Record t : Type := mk
  { rooms : list value; site : list value; amenities : list value }.
End Images.

Module Hotel.
Record t : Type := mk
  { id : value;
    destination_id : string;
    name : value;
    location : Location.t;
    description : value;
    amenities : Amenities.t;
    images : Images.t;
    booking_conditions : value }.
End Hotel.

Definition fields_Location : list string :=
  ["lat"; "lng"; "address"; "city"; "country"].
Definition fields_Amenities : list string := ["general"; "room"].
Definition fields_Images : list string := ["rooms"; "site"; "amenities"].
Definition fields_Hotel : list string :=
  ["id"; "destination_id"; "name"; "location"; "description"; "amenities";
   "images"; "booking_conditions"].

(** Building an [Images] from keyword arguments: a keyword that is not a
    field is a TypeError, a field that is not given is an empty list. *)
Fixpoint kw_get (kwargs : list (string * list value)) (f : string)
  : list value :=
  match kwargs with
  | [] => []
  | (k, v) :: kwargs' => if String.eqb k f then v else kw_get kwargs' f
  end.

Definition Images_of_kwargs (kwargs : list (string * list value))
  : result Images.t :=
  if forallb (fun kv => bool_decide (fst kv ∈ fields_Images)) kwargs then
    Ok (Images.mk (kw_get kwargs "rooms") (kw_get kwargs "site")
          (kw_get kwargs "amenities"))
  else Raise TypeError.

(** ** Acme *)

(** One turn of the loop of [acme_amenities_modify] on a text [r]. *)
Definition camel_step (r : string) (ret : string) (i : nat) : string :=
  match String.get i r with
  | None => ret
  | Some c =>
      let ret := ret +:+ String c "" in
      if (i + 1 <? String.length r) && Text.islower c
         && match String.get (i + 1) r with
            | Some d => Text.isupper d
            | None => false
            end
      then ret +:+ " " else ret
  end.

Definition acme_amenities_modify (r : string) : string :=
  if String.length r <=? 5 then Text.lower (Text.strip r)
  else
    let ret := foldl (camel_step r) "" (seq 0 (String.length r)) in
    Text.lower (Text.strip ret).

(** [s.islower()] and [s.isupper()] for a whole text: some cased character,
    and none of the other case. *)
Definition islower_text (s : string) : bool :=
  let cs := list_ascii_of_string s in
  existsb Text.islower cs && negb (existsb Text.isupper cs).

Definition isupper_text (s : string) : bool :=
  let cs := list_ascii_of_string s in
  existsb Text.isupper cs && negb (existsb Text.islower cs).

(** The loop of [acme_amenities_modify] when [r] is a list: [r[i]] is then a
    whole element, which [ret += r[i]] needs to be text. *)
Fixpoint camel_items (r : list value) (ret : string) : result string :=
  match r with
  | [] => Ok ret
  | VStr s :: r' =>
      let ret := ret +:+ s in
      match r' with
      | [] => Ok ret
      | y :: _ =>
          if islower_text s then
            match y with
            | VStr t => camel_items r' (if isupper_text t then ret +:+ " " else ret)
            | _ => Raise AttributeError
            end
          else camel_items r' ret
      end
  | _ :: _ => Raise TypeError
  end.

(** [acme_amenities_modify(r)] for any JSON value [r]: [len] needs a text,
    a list or a dict, [strip] a text, and [r[0]] fails on a dict, whose keys
    are text. *)
Definition acme_amenities_modify_any (r : value) : result value :=
  match r with
  | VStr s => Ok (VStr (acme_amenities_modify s))
  | VList l =>
      if length l <=? 5 then Raise AttributeError
      else ret ← camel_items l ""; Ok (VStr (Text.lower (Text.strip ret)))
  | VDict d => if length d <=? 5 then Raise AttributeError else Raise KeyError
  | _ => Raise TypeError
  end.

Module Acme.
Section Parse.

(** [countries.get(x).name], the country table of the iso3166 package;
    [None] when the lookup raises KeyError. *)
Variable countries_get : value → option string.

Definition parse (dto : value) : result Hotel.t :=
  id ← getitem dto "Id";
  destination_id ← py_str <$> getitem dto "DestinationId";
  name ← getitem dto "Name";
  lat ← getitem dto "Latitude";
  lng ← getitem dto "Longitude";
  address ← getitem dto "Address";
  city ← getitem dto "City";
  code ← getitem dto "Country";
  country ← match countries_get code with
            | Some n => Ok n
            | None => Raise KeyError
            end;
  description ← getitem dto "Description";
  facilities ← getitem dto "Facilities";
  general ← (if is_None facilities then Ok []
             else rs ← iterate facilities; traverse acme_amenities_modify_any rs);
  Ok (Hotel.mk id destination_id name
        (Location.mk lat lng address city (VStr country))
        description
        (Amenities.mk (VList general) (VList []))
        (Images.mk [] [] [])
        (VList [])).

End Parse.
End Acme.

(** ** Paperflies *)

Definition image_entry (link_key description_key : string) (data : value)
  : result value :=
  link ← getitem data link_key;
  description ← getitem data description_key;
  Ok (VDict [("link", link); ("description", description)]).

Definition paperflies_images_modify (images : value) : result (list value) :=
  ds ← iterate images; traverse (image_entry "link" "caption") ds.

(** The keyword arguments [{key: modify(value) for key, value in d.items()}]. *)
Definition images_kwargs (modify : value → result (list value)) (d : value)
  : result (list (string * list value)) :=
  kvs ← items d;
  traverse (fun kv => v ← modify (snd kv); Ok (fst kv, v)) kvs.

Module Paperflies.

Definition parse (dto : value) : result Hotel.t :=
  id ← getitem dto "hotel_id";
  destination_id ← py_str <$> getitem dto "destination_id";
  name ← getitem dto "hotel_name";
  address ← (loc ← getitem dto "location"; getitem loc "address");
  country ← (loc ← getitem dto "location"; getitem loc "country");
  description ← getitem dto "details";
  general ← (a ← getitem dto "amenities"; getitem a "general");
  room ← (a ← getitem dto "amenities"; getitem a "room");
  images ← (im ← getitem dto "images";
            kwargs ← images_kwargs paperflies_images_modify im;
            Images_of_kwargs kwargs);
  booking_conditions ← getitem dto "booking_conditions";
  Ok (Hotel.mk id destination_id name
        (Location.mk VNone VNone address VNone country)
        description
        (Amenities.mk general room)
        images
        booking_conditions).

End Paperflies.

(** ** Patagonia *)

Definition patagonia_images_modify (images : value) : result (list value) :=
  ds ← iterate images; traverse (image_entry "url" "description") ds.

(** [r.strip().lower()]: only a text has [strip]. *)
Definition strip_lower (r : value) : result value :=
  match r with
  | VStr s => Ok (VStr (Text.lower (Text.strip s)))
  | _ => Raise AttributeError
  end.

Module Patagonia.

Definition parse (dto : value) : result Hotel.t :=
  id ← getitem dto "id";
  destination_id ← py_str <$> getitem dto "destination";
  name ← getitem dto "name";
  lat ← getitem dto "lat";
  lng ← getitem dto "lng";
  address ← getitem dto "address";
  description ← getitem dto "info";
  amenities ← getitem dto "amenities";
  room ← (if is_None amenities then Ok []
          else rs ← iterate amenities; traverse strip_lower rs);
  images ← (im ← getitem dto "images";
            kwargs ← images_kwargs patagonia_images_modify im;
            Images_of_kwargs kwargs);
  Ok (Hotel.mk id destination_id name
        (Location.mk lat lng address VNone VNone)
        description
        (Amenities.mk (VList []) (VList room))
        images
        (VList [])).

End Patagonia.

(** ** The scalar reducer *)

(** The text [longest_content] measures for a candidate: [str(i)], replaced
    by the empty text when it reads [None] or [[]]. *)
Definition content_of (i : value) : string :=
  let content := py_str i in
  if String.eqb content "None" || String.eqb content "[]" then "" else content.

(** One turn of the loop of [longest_content]. *)
Definition longest_step (ret i : value) : value :=
  let ret := if is_None ret then i else ret in
  let content := content_of i in
  if String.length (py_str ret) <? String.length content then i else ret.

Definition longest_content (content_list : list value) (default_value : value)
  : value :=
  if length content_list =? 0 then default_value
  else foldl longest_step VNone content_list.


(** ** HotelsService: the frame and its reducers

    [pd.DataFrame(all_supplier_data)] turns every [Hotel] into a row of plain
    dicts and lists, and the reducers read the rows of one hotel id in the
    order the records arrived.  The nested dicts are kept as finite maps from
    field names; amenities are lists of text and an image entry has a text
    link, as the dataclasses declare them. *)

Record ImageRef : Type := mkImageRef { link : string; description : value }.

Module HotelRow.
Record t : Type := mk
  { id : value;
    destination_id : value;
    name : value;
    location : gmap string value;
    description : value;
    amenities : gmap string (list string);
    images : option (gmap string (list ImageRef));
    booking_conditions : value }.
End HotelRow.

(** [list(set(xs))]: Python fixes no order for the elements of a set, so the
    reducers are stated for any way of listing them. *)
Class SetOrder : Type := mkSetOrder
  { list_of_set : list string → list string;
    list_of_set_NoDup : ∀ xs, NoDup (list_of_set xs);
    list_of_set_elem : ∀ xs x, x ∈ list_of_set xs ↔ x ∈ xs }.

(** One such listing, used to run the reducers on examples. *)
Definition insertion_order : SetOrder :=
  {| list_of_set := remove_dups;
     list_of_set_NoDup := NoDup_remove_dups;
     list_of_set_elem := fun xs x => elem_of_remove_dups xs x |}.

(** A cell of a merged hotel: a scalar, or one of the three nested dicts. *)
Inductive cell : Type :=
  | CScalar (v : value)
  | CAmenities (a : gmap string (list string))
  | CImages (i : gmap string (list ImageRef))
  | CLocation (l : gmap string value).

Module HotelsService.

(** [i[f] if f in i.keys() else []], summed over the rows. *)
Definition amenities_column (f : string) (df : list (gmap string (list string)))
  : list string :=
  concat (map (fun i => default [] (i !! f)) df).

Definition merge_amenities `{SetOrder} (df : list (gmap string (list string)))
  : gmap string (list string) :=
  foldl (fun ret f => <[f := list_of_set (amenities_column f df)]> ret)
    ∅ fields_Amenities.

(** [i[f] if i is not None and f in i.keys() else []], summed over the rows. *)
Definition images_column (f : string)
    (df : list (option (gmap string (list ImageRef)))) : list ImageRef :=
  concat (map (fun i => match i with
                        | Some d => default [] (d !! f)
                        | None => []
                        end) df).

(** One turn of the inner loop of [merge_images]: the links seen so far and
    the list built so far. *)
Definition seen_step (st : gset string * list ImageRef) (element : ImageRef)
  : gset string * list ImageRef :=
  if decide (link element ∈ fst st) then st
  else ({[link element]} ∪ fst st, snd st ++ [element]).

Definition first_seen (filtered : list ImageRef) : list ImageRef :=
  snd (foldl seen_step (∅, []) filtered).

Definition merge_images (df : list (option (gmap string (list ImageRef))))
  : gmap string (list ImageRef) :=
  foldl (fun ret f => <[f := first_seen (images_column f df)]> ret)
    ∅ fields_Images.

(** [i[f] if f in i.keys() else []] for each row. *)
Definition location_column (f : string) (df : list (gmap string value))
  : list value :=
  map (fun i => default (VList []) (i !! f)) df.

Definition merge_location (df : list (gmap string value)) (default_value : value)
  : gmap string value :=
  foldl (fun ret f =>
           <[f := longest_content (location_column f df) default_value]> ret)
    ∅ fields_Location.

(** [cur_df[f]] for a scalar field [f]. *)
Definition scalar_column (f : string) (cur_df : list HotelRow.t) : list value :=
  map (fun r =>
         if String.eqb f "id" then HotelRow.id r
         else if String.eqb f "destination_id" then HotelRow.destination_id r
         else if String.eqb f "name" then HotelRow.name r
         else if String.eqb f "description" then HotelRow.description r
         else HotelRow.booking_conditions r) cur_df.

(** The body of the loop of [merge_and_save] for one hotel id: [cur_df]
    holds the rows with that id.  [MISSING] is [hotel_field.default], the
    marker [dataclasses] gives a field declared without a default, as every
    field of [Hotel] is. *)
Definition merge_hotel `{SetOrder} (MISSING : value) (cur_df : list HotelRow.t)
  : gmap string cell :=
  foldl (fun hotel f =>
           if String.eqb f "amenities" then
             <["amenities" := CAmenities (merge_amenities (map HotelRow.amenities cur_df))]> hotel
           else if String.eqb f "images" then
             <["images" := CImages (merge_images (map HotelRow.images cur_df))]> hotel
           else if String.eqb f "location" then
             <["location" := CLocation (merge_location (map HotelRow.location cur_df) MISSING)]> hotel
           else
             <[f := CScalar (longest_content (scalar_column f cur_df) MISSING)]> hotel)
    ∅ fields_Hotel.

(** *** find

    The catalog is a frame with the columns of a merged hotel; [id] and
    [destination_id] hold text, the other columns are the payload [P]. *)

Section Find.
Context {P : Type}.

Record entry : Type := mkEntry
  { id : string; destination_id : string; payload : P }.

(** [json.loads(ret.to_json(orient='records'))]: text comes back as it was,
    the other columns as [reencode] leaves them. *)
Variable reencode : P → P.

Definition to_records (ret : list entry) : list entry :=
  map (fun e => mkEntry (id e) (destination_id e) (reencode (payload e))) ret.

(** [s.split(',') if s != 'none' else []] *)
Definition id_list (s : string) : list string :=
  if String.eqb s "none" then [] else Text.split_on "," s.

(** [{value: pos for pos, value in enumerate(l)}]: a later position
    overwrites an earlier one. *)
Definition positions (l : list string) : gmap string nat :=
  foldl (fun m pv => <[snd pv := fst pv]> m) ∅ (imap pair l).

(** What indexes the frame: a plain boolean or a boolean column. *)
Inductive mask : Type :=
  | MBool (b : bool)
  | MSeries (bs : list bool).

(** [not l or column.isin(l)] *)
Definition unless_empty (l : list string) (column : list string) : mask :=
  match l with
  | [] => MBool true
  | _ => MSeries (map (fun x => bool_decide (x ∈ l)) column)
  end.

(** [a & b] *)
Definition mask_and (a b : mask) : mask :=
  match a, b with
  | MBool x, MBool y => MBool (x && y)
  | MBool x, MSeries ys => MSeries (map (andb x) ys)
  | MSeries xs, MBool y => MSeries (map (fun x => x && y) xs)
  | MSeries xs, MSeries ys => MSeries (zip_with andb xs ys)
  end.

(** [frame[m]]: a boolean column selects rows; a plain boolean is looked up
    as a column label, and the frame has no such column. *)
Definition frame_getitem (hotels : list entry) (m : mask)
  : result (list entry) :=
  match m with
  | MBool _ => Raise KeyError
  | MSeries bs => Ok (map snd (filter (fun be => fst be = true) (zip bs hotels)))
  end.

Definition key_le (a b : nat * nat) : bool :=
  (fst a <? fst b) || (fst a =? fst b) && (snd a <=? snd b).

(** [sorted(xs, key=key)]: stable. *)
Fixpoint insert_by {A} (key : A → nat * nat) (x : A) (xs : list A) : list A :=
  match xs with
  | [] => [x]
  | y :: ys => if key_le (key x) (key y) then x :: xs else y :: insert_by key x ys
  end.

Definition sorted {A} (key : A → nat * nat) (xs : list A) : list A :=
  foldr (insert_by key) [] xs.

Definition sort_key (hotel_ids_rev destination_ids_rev : gmap string nat)
    (x : entry) : nat * nat :=
  (default 0 (hotel_ids_rev !! id x),
   default 0 (destination_ids_rev !! destination_id x)).

Definition find_in (hotels : list entry) (hotel_list destination_list : list string)
  : result (list entry) :=
  let hotel_ids_rev := positions hotel_list in
  let destination_ids_rev := positions destination_list in
  ret ← frame_getitem hotels
          (mask_and (unless_empty hotel_list (map id hotels))
                    (unless_empty destination_list (map destination_id hotels)));
  let ret := to_records ret in
  Ok (if bool_decide (hotel_list ≠ [] ∨ destination_list ≠ [])
      then sorted (sort_key hotel_ids_rev destination_ids_rev) ret
      else ret).

Definition find (hotels : list entry) (hotel_ids destination_ids : string)
  : result (list entry) :=
  find_in hotels (id_list hotel_ids) (id_list destination_ids).

End Find.

End HotelsService.

(** ** The specification's reading of the scalar policy *)

(** The display form: null and an empty collection count as the empty text,
    anything else as its string form. *)
Definition display_form (v : value) : string :=
  match v with
  | VNone | VList [] | VDict [] => ""
  | _ => py_str v
  end.


(** The first candidate that is not null. *)
Fixpoint first_non_null (l : list value) : option value :=
  match l with
  | [] => None
  | x :: l' => if is_None x then first_non_null l' else Some x
  end.


(** Length of the text [longest_content] measures for a candidate. *)
Definition weight (v : value) : nat := String.length (content_of v).

(** ** Auxiliary definitions *)

(** [dataclasses.asdict] on a [Location]. *)
Definition location_dict (l : Location.t) : gmap string value :=
  <["country" := Location.country l]>
    (<["city" := Location.city l]>
       (<["address" := Location.address l]>
          (<["lng" := Location.lng l]>
             (<["lat" := Location.lat l]> ∅)))).

(** The entries of [l] whose link is neither in [seen] nor carried by an
    earlier entry of [l]. *)
Fixpoint unseen (seen : gset string) (l : list ImageRef) : list ImageRef :=
  match l with
  | [] => []
  | e :: l' =>
      if decide (link e ∈ seen) then unseen seen l'
      else e :: unseen ({[link e]} ∪ seen) l'
  end.

(** ** The specification's reading of [find] *)

Section FindSpec.
Context {P : Type}.

(** A record passes when its id is listed or no id is, and its destination
    id is listed or no destination id is. *)
Definition passes (hotelIds destinationIds : list string)
    (e : @HotelsService.entry P) : Prop :=
  (HotelsService.id e ∈ hotelIds ∨ hotelIds = [])
  ∧ (HotelsService.destination_id e ∈ destinationIds ∨ destinationIds = []).

#[global] Instance passes_dec hotelIds destinationIds e :
  Decision (passes hotelIds destinationIds e).
Proof. unfold passes. apply _. Defined.

End FindSpec.

(** [p] is the index of [s] in [l], the last one if [s] is repeated. *)
Definition is_position (l : list string) (s : string) (p : nat) : Prop :=
  l !! p = Some s ∧ ∀ q, l !! q = Some s → q ≤ p.

(** The index of [s] in [l], or 0 when [s] does not occur. *)
Definition position_or_zero (l : list string) (s : string) (p : nat) : Prop :=
  ((s ∉ l) ∧ p = 0) ∨ is_position l s p.

(** The order of Python on pairs of numbers. *)
Definition pair_le (a b : nat * nat) : Prop :=
  (fst a < fst b) ∨ (fst a = fst b ∧ snd a ≤ snd b).

(** ** Sample supplier records *)

(** A Paperflies record whose general amenities are null. *)
Definition paperflies_null_general : value :=
  VDict
    [("hotel_id", VStr "iJhz");
     ("destination_id", VInt 5432);
     ("hotel_name", VStr "Beach Villas Singapore");
     ("location", VDict [("address", VStr "8 Sentosa Gateway");
                         ("country", VStr "Singapore")]);
     ("details", VStr "Surrounded by tropical gardens.");
     ("amenities", VDict [("general", VNone); ("room", VList [VStr "tv"])]);
     ("images",
      VDict [("rooms",
              VList [VDict [("link", VStr "https://d2ey9sqrvkqdfs.cloudfront.net/0qZF/2.jpg");
                            ("caption", VStr "Double room")]])]);
     ("booking_conditions", VList [])].

(** An Acme record, with a numeric destination id. *)
Definition acme_sample : value :=
  VDict
    [("Id", VStr "iJhz");
     ("DestinationId", VInt 5432);
     ("Name", VStr "Beach Villas Singapore");
     ("Latitude", VFloat "1.264751");
     ("Longitude", VFloat "103.824006");
     ("Address", VStr " 8 Sentosa Gateway, Beach Villas ");
     ("City", VStr "Singapore");
     ("Country", VStr "SG");
     ("PostalCode", VStr "098269");
     ("Description", VStr "  This 5 star hotel is located on the coastline of Singapore.");
     ("Facilities", VList [VStr "Pool"; VStr "BusinessCenter"; VStr "WiFi "; VStr "DryCleaning"])].

(** A country table with one entry. *)
Definition sample_countries (x : value) : option string :=
  match x with
  | VStr s => if String.eqb s "SG" then Some "Singapore" else None
  | _ => None
  end.

(** ** The specification's reading of the Acme cleanup *)

(** A lowercase letter immediately followed by an uppercase one. *)
Definition boundary (c d : ascii) : bool := Text.islower c && Text.isupper d.

Fixpoint has_boundary (s : string) : bool :=
  match s with
  | "" => false
  | String c s' =>
      match s' with
      | "" => false
      | String d _ => boundary c d || has_boundary s'
      end
  end.


(** The text with a space put at every cut. *)
Fixpoint camel_spaced (s : string) : string :=
  match s with
  | "" => ""
  | String c s' =>
      match s' with
      | "" => String c ""
      | String d _ =>
          if boundary c d then String c (String " " (camel_spaced s'))
          else String c (camel_spaced s')
      end
  end.

(** ** From parsed hotels to rows

    The row [pd.DataFrame] makes of a [Hotel] ([dataclasses.asdict]), read
    at the types of the reducers: defined when the amenities are lists of
    text and the image entries carry a text link. *)

Definition as_text (v : value) : option string :=
  match v with VStr s => Some s | _ => None end.

Definition as_text_list (v : value) : option (list string) :=
  match v with VList l => mapM as_text l | _ => None end.

Definition as_image (v : value) : option ImageRef :=
  match v with
  | VDict d =>
      l ← dict_get d "link" ≫= as_text;
      de ← dict_get d "description";
      Some (mkImageRef l de)
  | _ => None
  end.

Definition row_of_hotel (h : Hotel.t) : option HotelRow.t :=
  general ← as_text_list (Amenities.general (Hotel.amenities h));
  room ← as_text_list (Amenities.room (Hotel.amenities h));
  rooms ← mapM as_image (Images.rooms (Hotel.images h));
  site ← mapM as_image (Images.site (Hotel.images h));
  amenities ← mapM as_image (Images.amenities (Hotel.images h));
  Some (HotelRow.mk (Hotel.id h) (VStr (Hotel.destination_id h)) (Hotel.name h)
          (location_dict (Hotel.location h))
          (Hotel.description h)
          (<["room" := room]> (<["general" := general]> ∅))
          (Some (<["amenities" := amenities]> (<["site" := site]> (<["rooms" := rooms]> ∅))))
          (Hotel.booking_conditions h)).

(** ** Fetching *)

(** [BaseSupplier.fetch], from the decoded body [resp.json()] of the
    response on: [[self.parse(dto) for dto in resp.json()]]. *)
Definition fetch (parse : value → result Hotel.t) (resp_json : value)
  : result (list Hotel.t) :=
  dtos ← iterate resp_json; traverse parse dtos.

(** [getattr(images, f)] for a field name [f] of [Images]. *)
Definition images_field (f : string) (im : Images.t) : list value :=
  if String.eqb f "rooms" then Images.rooms im
  else if String.eqb f "site" then Images.site im
  else Images.amenities im.

(** The images of [h] are those of the raw record [dto], entry for entry,
    the link read under [link_key] and the description under
    [description_key]; a category the record does not have is empty. *)
Definition images_converted (link_key description_key : string)
    (dto : value) (h : Hotel.t) : Prop :=
  ∃ im, getitem dto "images" = Ok (VDict im)
    ∧ Forall (fun kv => fst kv ∈ fields_Images) im
    ∧ Forall (fun f =>
                match dict_get im f with
                | None => images_field f (Hotel.images h) = []
                | Some raw =>
                    ∃ ds, iterate raw = Ok ds
                      ∧ Forall2 (fun data v =>
                                   ∃ l de, getitem data link_key = Ok l
                                     ∧ getitem data description_key = Ok de
                                     ∧ v = VDict [("link", l); ("description", de)])
                          ds (images_field f (Hotel.images h))
                end) fields_Images.

(** An Acme record of a country the sample table does not know. *)
Definition acme_unknown_country : list (string * value) :=
  [("Id", VStr "f8c9"); ("DestinationId", VInt 1122); ("Name", VStr "Hilton Shinjuku Tokyo");
   ("Latitude", VStr ""); ("Longitude", VStr ""); ("Address", VStr "160-0023, SHINJUKU-KU");
   ("City", VStr "Tokyo"); ("Country", VStr "JP"); ("Description", VStr "Hilton Tokyo");
   ("Facilities", VNone)].

(** A Patagonia record. *)
Definition patagonia_sample : value :=
  VDict
    [("id", VStr "iJhz");
     ("destination", VInt 5432);
     ("name", VStr "Beach Villas Singapore");
     ("lat", VFloat "1.264751");
     ("lng", VFloat "103.824006");
     ("address", VStr "8 Sentosa Gateway, Beach Villas, 098269");
     ("info", VStr "Located at the western tip of Resorts World Sentosa.");
     ("amenities", VList [VStr "Aircon"; VStr " Tv"; VStr "Coffee machine"]);
     ("images",
      VDict [("rooms",
              VList [VDict [("url", VStr "https://d2ey9sqrvkqdfs.cloudfront.net/0qZF/2.jpg");
                            ("description", VStr "Double room")]]);
             ("amenities",
              VList [VDict [("url", VStr "https://d2ey9sqrvkqdfs.cloudfront.net/0qZF/0.jpg");
                            ("description", VStr "RWS")]])])].

(** ** merge_and_save

    From the parsed hotels to the merged hotels the catalog is made of
    ([self.hotels] before it is turned into a frame): one for each distinct
    id, in the order [list(set(...))] lists the ids, each merged from the
    rows with that id in the order the records arrived.  Defined when the
    hotels have rows at the types of the reducers and their ids are text. *)
Definition merge_and_save `{SetOrder} (MISSING : value)
    (all_supplier_data : list Hotel.t) : option (list (gmap string cell)) :=
  df ← mapM row_of_hotel all_supplier_data;
  ids ← mapM (fun data => as_text (Hotel.id data)) all_supplier_data;
  let hotel_ids := list_of_set ids in
  Some (map (fun hotel_id =>
               let cur_df := filter (fun r => as_text (HotelRow.id r) = Some hotel_id) df in
               HotelsService.merge_hotel MISSING cur_df)
          hotel_ids).

(** The Acme and the Patagonia sample, parsed: two records of one hotel. *)
Definition parsed_samples : list Hotel.t :=
  match Acme.parse sample_countries acme_sample, Patagonia.parse patagonia_sample with
  | Ok a, Ok p => [a; p]
  | _, _ => []
  end.

(** * Properties *)

(** ** The text functions on examples *)

Example py_str_list :
  py_str (VList [VStr "tv"; VInt (-12); VFloat "1.5"; VNone; VBool true; VList []])
  = "['tv', -12, 1.5, None, True, []]".
Proof. reflexivity. Qed.

Example py_str_dict :
  py_str (VDict [("link", VStr "a/b.jpg"); ("description", VNone)])
  = "{'link': 'a/b.jpg', 'description': None}".
Proof. reflexivity. Qed.

Example split_on_ids : Text.split_on "," "H3,H1" = ["H3"; "H1"].
Proof. reflexivity. Qed.

Example split_on_empty : Text.split_on "," "" = [""].
Proof. reflexivity. Qed.

Example strip_spaces : Text.strip "  Dry Cleaning  " = "Dry Cleaning".
Proof. reflexivity. Qed.

Example content_of_empty_list : content_of (VList []) = "".
Proof. reflexivity. Qed.

Example longest_content_names :
  longest_content [VStr "Beach Hotel"; VStr "Beach Hotel Resort"; VStr ""] VNone
  = VStr "Beach Hotel Resort".
Proof. reflexivity. Qed.

(** ** The scalar reducer *)

Section LongestContent.

Implicit Types (l a b : list value) (t w x i : value).

Lemma content_of_None : content_of VNone = "".
Proof. reflexivity. Qed.

Lemma content_of_cases i :
  (content_of i = "" ∧ (py_str i = "None" ∨ py_str i = "[]"))
  ∨ (content_of i = py_str i ∧ py_str i ≠ "None" ∧ py_str i ≠ "[]").
Proof.
  unfold content_of; cbv zeta.
  destruct (String.eqb_spec (py_str i) "None") as [->|Hn]; [left; auto|].
  destruct (String.eqb_spec (py_str i) "[]") as [->|Hl]; [left; auto|].
  right; auto.
Qed.

Lemma weight_le i : weight i ≤ String.length (py_str i).
Proof.
  unfold weight. destruct (content_of_cases i) as [[-> _]|[-> _]]; simpl; lia.
Qed.

(** A candidate with a text to measure is not null and is measured by its
    whole string form. *)
Lemma weight_pos i :
  0 < weight i → i ≠ VNone ∧ String.length (py_str i) = weight i.
Proof.
  unfold weight. intros H. split.
  - intros ->. simpl in H. lia.
  - destruct (content_of_cases i) as [[E _]|[E _]]; rewrite E in *; [simpl in H; lia | done].
Qed.

Lemma plain_weight i :
  py_str i ≠ "None" → py_str i ≠ "[]" → String.length (py_str i) = weight i.
Proof.
  intros Hn Hl. unfold weight.
  destruct (content_of_cases i) as [[_ [?|?]]|[-> _]]; done.
Qed.

Lemma longest_step_None i : longest_step VNone i = i.
Proof.
  unfold longest_step; simpl.
  destruct (Nat.ltb_spec (String.length (py_str i)) (String.length (content_of i))); done.
Qed.

Lemma longest_step_tracked t i :
  t ≠ VNone →
  longest_step t i = if String.length (py_str t) <? weight i then i else t.
Proof. intros Ht. unfold longest_step, weight. by destruct t. Qed.

Lemma foldl_longest_nulls a l :
  Forall (fun x => x = VNone) a →
  foldl longest_step VNone (a ++ l) = foldl longest_step VNone l.
Proof.
  induction 1 as [|x a -> _ IH]; [done|]. simpl. by rewrite longest_step_None.
Qed.

(** From a tracked candidate measured by its whole string form, the loop
    ends on the first candidate of greatest weight. *)
Lemma foldl_longest_tracked l t :
  t ≠ VNone → String.length (py_str t) = weight t →
  ∃ a w b, t :: l = a ++ w :: b
    ∧ foldl longest_step t l = w
    ∧ w ≠ VNone
    ∧ Forall (fun x => weight x < weight w) a
    ∧ Forall (fun x => weight x ≤ weight w) b.
Proof.
  revert t. induction l as [|i l IH]; intros t Ht Hp.
  - exists [], t, []. repeat split; auto.
  - simpl. rewrite (longest_step_tracked _ _ Ht).
    destruct (Nat.ltb_spec (String.length (py_str t)) (weight i)) as [Hlt|Hge].
    + destruct (weight_pos i) as [Hi Hpi]; [lia|].
      destruct (IH i Hi Hpi) as (a & w & b & E & R & Hw & Ha & Hb).
      assert (Hiw : weight i ≤ weight w).
      { destruct a as [|y a]; simpl in E; injection E as E1 E2.
        - rewrite E1. lia.
        - subst y. apply Forall_cons in Ha as [? _]. lia. }
      exists (t :: a), w, b. rewrite <- app_comm_cons, <- E.
      repeat split; auto. constructor; [lia|done].
    + destruct (IH t Ht Hp) as (a & w & b & E & R & Hw & Ha & Hb).
      destruct a as [|y a]; simpl in E; injection E as E1 E2.
      * exists [], t, (i :: l). subst w b. repeat split; auto.
        constructor; [lia|done].
      * exists (y :: i :: a), w, b. subst y l.
        apply Forall_cons in Ha as [? ?].
        repeat split; auto. repeat constructor; auto; lia.
Qed.

Lemma first_non_null_split l r0 :
  first_non_null l = Some r0 →
  ∃ a rest, l = a ++ r0 :: rest ∧ Forall (fun x => x = VNone) a ∧ r0 ≠ VNone.
Proof.
  induction l as [|x l IH]; [done|]. simpl.
  destruct x; simpl; intros E;
    try (injection E as <-; exists [], l; repeat split; done).
  destruct (IH E) as (a & rest & -> & Ha & Hr).
  exists (VNone :: a), rest. repeat split; auto.
Qed.

Lemma first_non_null_None l :
  first_non_null l = None ↔ Forall (fun x => x = VNone) l.
Proof.
  induction l as [|x l IH]; simpl; [by split|].
  destruct x; simpl; rewrite ?IH; split; intros H;
    try done; try (by constructor); try (by apply Forall_cons in H as [? ?]).
Qed.

Lemma longest_content_cons x l d :
  longest_content (x :: l) d = foldl longest_step VNone (x :: l).
Proof. reflexivity. Qed.

Lemma longest_content_app_cons a x l d :
  longest_content (a ++ x :: l) d = foldl longest_step VNone (a ++ x :: l).
Proof. by destruct a. Qed.


Lemma longest_content_nulls l d :
  l ≠ [] → Forall (fun x => x = VNone) l → longest_content l d = VNone.
Proof.
  intros Hne Hl. destruct l as [|x l]; [done|].
  rewrite longest_content_cons, <- (app_nil_r (x :: l)).
  by rewrite foldl_longest_nulls.
Qed.



Lemma foldl_longest_keep l t :
  t ≠ VNone → Forall (fun x => weight x ≤ String.length (py_str t)) l →
  foldl longest_step t l = t.
Proof.
  intros Ht. induction 1 as [|i l Hi _ IH]; [done|]. simpl.
  rewrite (longest_step_tracked _ _ Ht).
  destruct (Nat.ltb_spec (String.length (py_str t)) (weight i)); [lia|done].
Qed.

Lemma foldl_longest_elem l t :
  foldl longest_step t l = t ∨ foldl longest_step t l ∈ l.
Proof.
  revert t. induction l as [|i l IH]; intros t; [by left|]. simpl.
  destruct (IH (longest_step t i)) as [E|E]; [|right; by right].
  rewrite E. unfold longest_step.
  destruct (_ <? _); [right; left|].
  destruct (is_None t); [right; left|by left].
Qed.

(** The merged value of a group that is not empty is one of its candidates. *)
Lemma longest_content_elem l d : l ≠ [] → longest_content l d ∈ l.
Proof.
  destruct l as [|x l]; [done|]. intros _.
  rewrite longest_content_cons. simpl. rewrite longest_step_None.
  destruct (foldl_longest_elem l x) as [->|E]; [left|by right].
Qed.

Lemma longest_content_all_empty l d :
  l ≠ [] → Forall (fun x => content_of x = "") l →
  longest_content l d = default VNone (first_non_null l).
Proof.
  intros Hne Hl. destruct (first_non_null l) as [r0|] eqn:E; simpl.
  - destruct (first_non_null_split _ _ E) as (n & rest & -> & Hn & Hr).
    rewrite longest_content_app_cons, foldl_longest_nulls by done.
    simpl. rewrite longest_step_None. apply foldl_longest_keep; [done|].
    apply Forall_app in Hl as [_ Hl]. apply Forall_cons in Hl as [_ Hl].
    eapply Forall_impl; [exact Hl|]. intros x Hx. unfold weight. rewrite Hx. simpl. lia.
  - apply longest_content_nulls; [done|]. by apply first_non_null_None.
Qed.

End LongestContent.



(** ** The loop over the fields of a hotel *)

Section MergeHotel.
Context `{SetOrder}.
Implicit Types (l a b : list value) (t w x i : value).

Lemma merge_hotel_unfold MISSING cur_df :
  HotelsService.merge_hotel MISSING cur_df =
  <["booking_conditions" := CScalar (longest_content (HotelsService.scalar_column "booking_conditions" cur_df) MISSING)]>
  (<["images" := CImages (HotelsService.merge_images (map HotelRow.images cur_df))]>
  (<["amenities" := CAmenities (HotelsService.merge_amenities (map HotelRow.amenities cur_df))]>
  (<["description" := CScalar (longest_content (HotelsService.scalar_column "description" cur_df) MISSING)]>
  (<["location" := CLocation (HotelsService.merge_location (map HotelRow.location cur_df) MISSING)]>
  (<["name" := CScalar (longest_content (HotelsService.scalar_column "name" cur_df) MISSING)]>
  (<["destination_id" := CScalar (longest_content (HotelsService.scalar_column "destination_id" cur_df) MISSING)]>
  (<["id" := CScalar (longest_content (HotelsService.scalar_column "id" cur_df) MISSING)]> ∅))))))).
Proof. reflexivity. Qed.

Lemma merge_hotel_scalar MISSING cur_df f :
  f ∈ ["id"; "destination_id"; "name"; "description"; "booking_conditions"] →
  HotelsService.merge_hotel MISSING cur_df !! f
  = Some (CScalar (longest_content (HotelsService.scalar_column f cur_df) MISSING)).
Proof.
  intros Hf. rewrite merge_hotel_unfold.
  repeat (apply elem_of_cons in Hf as [->|Hf]); [..|by apply elem_of_nil in Hf];
    by simplify_map_eq.
Qed.
End MergeHotel.

Section Default.
Context `{SetOrder}.

(** C2 (amended).  The default is the answer for an empty group only, and
    the loop over the fields hands every scalar field, and the location
    reducer, the same marker of a field declared without default.  For a
    group that is not empty and whose candidates all measure as empty, the
    merged value is one of them: the first that is not null, or null when
    all are. *)
Theorem longest_content_default (content_list : list value) (default_value : value) :
  (content_list = [] → longest_content content_list default_value = default_value)
  ∧ (content_list ≠ [] →
     Forall (fun x => content_of x = "") content_list →
     longest_content content_list default_value
       = default VNone (first_non_null content_list)
     ∧ longest_content content_list default_value ∈ content_list)
  ∧ (∀ MISSING cur_df f,
       f ∈ ["id"; "destination_id"; "name"; "description"; "booking_conditions"] →
       HotelsService.merge_hotel MISSING cur_df !! f
       = Some (CScalar (longest_content (HotelsService.scalar_column f cur_df) MISSING)))
  ∧ (∀ MISSING cur_df,
       HotelsService.merge_hotel MISSING cur_df !! "location"
       = Some (CLocation (HotelsService.merge_location (map HotelRow.location cur_df) MISSING))).
Proof.
  split; [by intros ->|]. split; [|split].
  - intros Hne Hl. split; [by apply longest_content_all_empty|].
    by apply longest_content_elem.
  - intros. by apply merge_hotel_scalar.
  - intros. rewrite merge_hotel_unfold. by simplify_map_eq.
Qed.

End Default.

(** C2, counterexample: a text field whose two candidates are null merges
    to null, not to the empty text. *)
Lemma longest_content_all_null_not_default :
  Forall (fun c => display_form c = "") [VNone; VNone]
  ∧ longest_content [VNone; VNone] (VStr "") = VNone.
Proof. split; [by repeat constructor|reflexivity]. Qed.

(** C2, witness: a null and an empty name. *)
Lemma longest_content_default_witness :
  longest_content [VNone; VStr ""] (VStr "n/a") = VStr ""
  ∧ longest_content [VNone; VStr ""] (VStr "n/a") ∈ [VNone; VStr ""].
Proof.
  apply (proj1 (proj2 (@longest_content_default insertion_order
                         [VNone; VStr ""] (VStr "n/a")))).
  - discriminate.
  - repeat constructor.
Defined.

(** ** The location reducer *)

Lemma longest_content_pair_l c d : longest_content [c; VNone] d = c.
Proof.
  rewrite longest_content_cons. simpl. rewrite longest_step_None.
  unfold longest_step. destruct c; reflexivity.
Qed.

Lemma longest_content_pair_r c d : longest_content [VNone; c] d = c.
Proof. rewrite longest_content_cons. simpl. by rewrite !longest_step_None. Qed.

Lemma merge_location_unfold df d :
  HotelsService.merge_location df d =
  <["country" := longest_content (HotelsService.location_column "country" df) d]>
    (<["city" := longest_content (HotelsService.location_column "city" df) d]>
       (<["address" := longest_content (HotelsService.location_column "address" df) d]>
          (<["lng" := longest_content (HotelsService.location_column "lng" df) d]>
             (<["lat" := longest_content (HotelsService.location_column "lat" df) d]> ∅)))).
Proof. reflexivity. Qed.

(** C4.  Each sub-field of the merged location is the scalar reducer applied
    to that sub-field of the rows, and of two partial locations, one with
    only a city and one with only a country, the merged location carries
    both, in either order of arrival. *)
Theorem merge_location_independent (df : list (gmap string value)) (default_value c k : value) :
  Forall (fun f =>
            HotelsService.merge_location df default_value !! f
            = Some (longest_content (HotelsService.location_column f df) default_value))
         fields_Location
  ∧ HotelsService.merge_location
      [location_dict (Location.mk VNone VNone VNone c VNone);
       location_dict (Location.mk VNone VNone VNone VNone k)] default_value
    = location_dict (Location.mk VNone VNone VNone c k)
  ∧ HotelsService.merge_location
      [location_dict (Location.mk VNone VNone VNone VNone k);
       location_dict (Location.mk VNone VNone VNone c VNone)] default_value
    = location_dict (Location.mk VNone VNone VNone c k).
Proof.
  split; [|split].
  - rewrite merge_location_unfold. repeat constructor; by simplify_map_eq.
  - rewrite merge_location_unfold. unfold HotelsService.location_column, location_dict.
    simpl. simplify_map_eq.
    by rewrite !longest_content_pair_l, !longest_content_pair_r.
  - rewrite merge_location_unfold. unfold HotelsService.location_column, location_dict.
    simpl. simplify_map_eq.
    by rewrite !longest_content_pair_l, !longest_content_pair_r.
Qed.

(** A row that lacks a key altogether, which [asdict] never produces, puts
    an empty list in the column, and a text of two characters does not
    displace it. *)
Example merge_location_missing_key :
  HotelsService.merge_location
    [{["city" := VStr "Singapore"]}; {["country" := VStr "SG"]}] VNone
    !! "country" = Some (VList []).
Proof. reflexivity. Qed.

(** ** The image reducer *)

Section Images.

Implicit Types (l out : list ImageRef) (seen : gset string) (e : ImageRef).

Lemma foldl_seen_step l seen out :
  snd (foldl HotelsService.seen_step (seen, out) l) = out ++ unseen seen l.
Proof.
  revert seen out. induction l as [|e l IH]; intros seen out; simpl.
  - by rewrite app_nil_r.
  - unfold HotelsService.seen_step at 2. simpl.
    destruct (decide (link e ∈ seen)); [apply IH|].
    rewrite IH. by rewrite <- app_assoc.
Qed.

Lemma first_seen_unseen l : HotelsService.first_seen l = unseen ∅ l.
Proof. unfold HotelsService.first_seen. by rewrite foldl_seen_step. Qed.






Lemma merge_images_unfold df :
  HotelsService.merge_images df =
  <["amenities" := HotelsService.first_seen (HotelsService.images_column "amenities" df)]>
    (<["site" := HotelsService.first_seen (HotelsService.images_column "site" df)]>
       (<["rooms" := HotelsService.first_seen (HotelsService.images_column "rooms" df)]> ∅)).
Proof. reflexivity. Qed.


End Images.

(** ** The amenities reducer *)

Section Amenities.
Context `{SetOrder}.

Implicit Types (df : list (gmap string (list string))) (l : list string).

Lemma merge_amenities_unfold df :
  HotelsService.merge_amenities df =
  <["room" := list_of_set (HotelsService.amenities_column "room" df)]>
    (<["general" := list_of_set (HotelsService.amenities_column "general" df)]> ∅).
Proof. reflexivity. Qed.

Lemma merge_amenities_lookup df f :
  f ∈ fields_Amenities →
  HotelsService.merge_amenities df !! f
  = Some (list_of_set (HotelsService.amenities_column f df)).
Proof.
  intros Hf. rewrite merge_amenities_unfold.
  repeat (apply elem_of_cons in Hf as [->|Hf]); [..|by apply elem_of_nil in Hf];
    by simplify_map_eq.
Qed.

(** Two listings of the same elements without repetition are permutations
    of each other. *)
Lemma list_of_set_Permutation l k :
  (∀ x, x ∈ l ↔ x ∈ k) → list_of_set l ≡ₚ list_of_set k.
Proof.
  intros E. apply NoDup_Permutation; try apply list_of_set_NoDup.
  intros x. rewrite !list_of_set_elem. apply E.
Qed.




End Amenities.


(** ** find *)

Section Find.
Context {P : Type} (reencode : P → P).

#[local] Abbreviation entry := (@HotelsService.entry P).
Implicit Types (hotels ret : list entry) (l hl dl : list string) (e x y : entry).

Lemma key_le_spec a b : HotelsService.key_le a b = true ↔ pair_le a b.
Proof.
  unfold HotelsService.key_le, pair_le.
  rewrite orb_true_iff, andb_true_iff, Nat.ltb_lt, Nat.eqb_eq, Nat.leb_le. tauto.
Qed.

Lemma key_le_false a b : HotelsService.key_le a b = false → pair_le b a ∧ a ≠ b.
Proof.
  intros Hf. assert (¬ pair_le a b) as Hn.
  { rewrite <- key_le_spec. by rewrite Hf. }
  unfold pair_le in *. destruct a, b; simpl in *. split; [lia|].
  intros [= -> ->]. lia.
Qed.

Lemma pair_le_trans a b c : pair_le a b → pair_le b c → pair_le a c.
Proof. unfold pair_le. lia. Qed.

(** *** The positions of the listed ids *)

Lemma positions_snoc l s :
  HotelsService.positions (l ++ [s]) = <[s := length l]> (HotelsService.positions l).
Proof.
  unfold HotelsService.positions. rewrite imap_app, foldl_app. simpl.
  by rewrite Nat.add_0_r.
Qed.

Lemma positions_Some l s p :
  HotelsService.positions l !! s = Some p ↔ is_position l s p.
Proof.
  revert p. induction l as [|x l IH] using rev_ind; intros p.
  - unfold is_position. split; [done|]. by intros [? _].
  - rewrite positions_snoc. unfold is_position.
    destruct (decide (x = s)) as [->|Hne].
    + rewrite lookup_insert_eq. split.
      * intros [= <-]. split; [by rewrite lookup_app_r, Nat.sub_diag|].
        intros q Hq. apply lookup_lt_Some in Hq. rewrite length_app in Hq. simpl in Hq. lia.
      * intros [Hp Hmax]. f_equal.
        assert (length l ≤ p) by (apply Hmax; by rewrite lookup_app_r, Nat.sub_diag).
        apply lookup_lt_Some in Hp. rewrite length_app in Hp. simpl in Hp. lia.
    + rewrite lookup_insert_ne by done. rewrite IH. unfold is_position.
      assert (∀ q, (l ++ [x]) !! q = Some s ↔ l !! q = Some s) as Hq.
      { intros q. destruct (decide (q < length l)).
        - by rewrite lookup_app_l.
        - rewrite lookup_app_r by lia. rewrite (lookup_ge_None_2 l q) by lia.
          destruct (q - length l) as [|m]; simpl; [|by rewrite lookup_nil].
          split; [by intros [= ?]|done]. }
      rewrite Hq. by setoid_rewrite Hq.
Qed.

Lemma positions_None l s : HotelsService.positions l !! s = None ↔ s ∉ l.
Proof.
  induction l as [|x l IH] using rev_ind.
  - split; [intros _; by intros ?%elem_of_nil|done].
  - rewrite positions_snoc. rewrite not_elem_of_app, not_elem_of_cons.
    destruct (decide (x = s)) as [->|Hne].
    + rewrite lookup_insert_eq. split; [done|]. by intros [_ [? _]].
    + rewrite lookup_insert_ne by done. rewrite IH. split; [|tauto].
      intros ?. split; [done|]. split; [done|]. by intros ?%elem_of_nil.
Qed.

Lemma positions_or_zero l s :
  position_or_zero l s (default 0 (HotelsService.positions l !! s)).
Proof.
  destruct (HotelsService.positions l !! s) as [p|] eqn:E; simpl.
  - right. by apply positions_Some.
  - left. by apply positions_None in E.
Qed.

(** *** Sorting *)

Section Sorted.
Context {A : Type} (key : A → nat * nat).
Implicit Types (xs : list A).

Lemma insert_by_Permutation a xs : HotelsService.insert_by key a xs ≡ₚ a :: xs.
Proof.
  induction xs as [|b xs IH]; simpl; [done|].
  destruct (HotelsService.key_le (key a) (key b)); [done|].
  rewrite IH. apply Permutation_swap.
Qed.

Lemma sorted_Permutation xs : HotelsService.sorted key xs ≡ₚ xs.
Proof.
  induction xs as [|a xs IH]; simpl; [done|].
  by rewrite insert_by_Permutation, IH.
Qed.

Lemma insert_by_sorted a xs :
  StronglySorted (fun u v => pair_le (key u) (key v)) xs →
  StronglySorted (fun u v => pair_le (key u) (key v)) (HotelsService.insert_by key a xs).
Proof.
  induction 1 as [|b xs Hxs IH Hb]; simpl.
  - repeat constructor.
  - destruct (HotelsService.key_le (key a) (key b)) eqn:E.
    + apply key_le_spec in E. constructor; [by constructor|].
      constructor; [done|]. eapply Forall_impl; [exact Hb|].
      intros c Hc. by eapply pair_le_trans.
    + apply key_le_false in E as [E _]. constructor; [done|].
      rewrite insert_by_Permutation. by constructor.
Qed.

Lemma sorted_sorted xs :
  StronglySorted (fun u v => pair_le (key u) (key v)) (HotelsService.sorted key xs).
Proof.
  induction xs as [|a xs IH]; simpl; [constructor|]. by apply insert_by_sorted.
Qed.



End Sorted.

(** *** The rows a mask selects *)

Lemma select_map (f : entry → bool) hotels :
  map snd (filter (fun be => fst be = true) (zip (map f hotels) hotels))
  = filter (fun e => f e = true) hotels.
Proof.
  induction hotels as [|e hotels IH]; simpl; [done|].
  rewrite !filter_cons. simpl. destruct (f e); simpl; by rewrite IH.
Qed.

Lemma filter_ext_bool (f : entry → bool) (Q : entry → Prop) `{∀ e, Decision (Q e)} hotels :
  (∀ e, f e = true ↔ Q e) →
  filter (fun e => f e = true) hotels = filter Q hotels.
Proof. intros E. apply list_filter_iff. exact E. Qed.

Lemma frame_getitem_masks hotels hl dl :
  hl ≠ [] ∨ dl ≠ [] →
  HotelsService.frame_getitem hotels
    (HotelsService.mask_and
       (HotelsService.unless_empty hl (map HotelsService.id hotels))
       (HotelsService.unless_empty dl (map HotelsService.destination_id hotels)))
  = Ok (filter (passes hl dl) hotels).
Proof.
  intros Hne. unfold passes.
  destruct hl as [|h hl], dl as [|d dl]; simpl.
  - by destruct Hne.
  - rewrite !map_map. f_equal.
    rewrite (select_map (fun e => true && bool_decide (HotelsService.destination_id e ∈ d :: dl))).
    apply filter_ext_bool. intros e. simpl. rewrite bool_decide_eq_true.
    split; [intros ?; split; [by right|by left]|]. intros [_ [?|?]]; done.
  - rewrite !map_map. f_equal.
    rewrite (select_map (fun e => bool_decide (HotelsService.id e ∈ h :: hl) && true)).
    apply filter_ext_bool. intros e. rewrite andb_true_r, bool_decide_eq_true.
    split; [intros ?; split; [by left|by right]|]. intros [[?|?] _]; done.
  - f_equal. rewrite !map_map.
    assert (zip_with andb
              (map (fun e => bool_decide (HotelsService.id e ∈ h :: hl)) hotels)
              (map (fun e => bool_decide (HotelsService.destination_id e ∈ d :: dl)) hotels)
            = map (fun e => bool_decide (HotelsService.id e ∈ h :: hl)
                            && bool_decide (HotelsService.destination_id e ∈ d :: dl)) hotels) as ->.
    { induction hotels as [|e hotels IH]; simpl; [done|]. by rewrite IH. }
    rewrite select_map. apply filter_ext_bool. intros e.
    rewrite andb_true_iff, !bool_decide_eq_true.
    split; [intros [? ?]; split; by left|]. intros [[?|?] [?|?]]; done.
Qed.

Lemma find_in_Ok hotels hl dl :
  hl ≠ [] ∨ dl ≠ [] →
  HotelsService.find_in reencode hotels hl dl
  = Ok (HotelsService.sorted
          (HotelsService.sort_key (HotelsService.positions hl) (HotelsService.positions dl))
          (HotelsService.to_records reencode (filter (passes hl dl) hotels))).
Proof.
  intros Hne. unfold HotelsService.find_in. rewrite frame_getitem_masks by done.
  simpl. by rewrite bool_decide_eq_true_2.
Qed.


(** C7.  With no filter at all both conditions are the plain boolean True,
    their conjunction is a plain boolean too, and indexing the frame with it
    raises KeyError whatever the catalog holds. *)
Theorem find_no_filter_raises hotels :
  HotelsService.find reencode hotels "none" "none" = Raise KeyError.
Proof. reflexivity. Qed.

(** With a filter given, the records answered are those that pass. *)
Lemma find_in_passes hotels hl dl ret x :
  hl ≠ [] ∨ dl ≠ [] →
  HotelsService.find_in reencode hotels hl dl = Ok ret →
  x ∈ ret ↔ x ∈ HotelsService.to_records reencode (filter (passes hl dl) hotels).
Proof.
  intros Hne. rewrite find_in_Ok by done. intros [= <-].
  by rewrite sorted_Permutation.
Qed.

Lemma to_records_passes hl dl hotels x :
  x ∈ HotelsService.to_records reencode (filter (passes hl dl) hotels) →
  (HotelsService.id x ∈ hl ∨ hl = [])
  ∧ (HotelsService.destination_id x ∈ dl ∨ dl = []).
Proof.
  unfold HotelsService.to_records. rewrite list_elem_of_fmap.
  intros (e & -> & He). apply list_elem_of_filter in He as [He _]. exact He.
Qed.

End Find.


(** ** The adapters *)

(** Splits a successful run of binds into its steps. *)
Ltac bind_inv H :=
  unfold mbind, result_bind, fmap, result_fmap in H;
  repeat match type of H with
    | match ?m with Ok _ => _ | Raise _ => _ end = _ =>
        let E := fresh "E" in
        destruct m eqn:E; simpl in H; [try bind_inv E|discriminate H]
    end.

Example acme_sample_parsed :
  Acme.parse sample_countries acme_sample
  = Ok (Hotel.mk (VStr "iJhz") "5432" (VStr "Beach Villas Singapore")
          (Location.mk (VFloat "1.264751") (VFloat "103.824006")
             (VStr " 8 Sentosa Gateway, Beach Villas ") (VStr "Singapore")
             (VStr "Singapore"))
          (VStr "  This 5 star hotel is located on the coastline of Singapore.")
          (Amenities.mk
             (VList [VStr "pool"; VStr "business center"; VStr "wifi"; VStr "dry cleaning"])
             (VList []))
          (Images.mk [] [] [])
          (VList [])).
Proof. reflexivity. Qed.

Lemma traverse_Ok {A B} (f : A → result B) xs ys :
  traverse f xs = Ok ys → Forall2 (fun x y => f x = Ok y) xs ys.
Proof.
  revert ys. induction xs as [|x xs IH]; simpl; intros ys H.
  - injection H as <-. constructor.
  - bind_inv H. injection H as <-. constructor; auto.
Qed.

(** Acme: the amenity lists of a parsed record are lists, empty when the
    record has null facilities. *)
Lemma Acme_parse_collections countries_get dto h :
  Acme.parse countries_get dto = Ok h →
  ∃ facilities general,
    getitem dto "Facilities" = Ok facilities
    ∧ Amenities.general (Hotel.amenities h) = VList general
    ∧ Amenities.room (Hotel.amenities h) = VList []
    ∧ (facilities = VNone → general = []).
Proof.
  unfold Acme.parse. intros H. bind_inv H. injection H as <-. simpl.
  eexists _, _. repeat split. intros ->. simpl in *. congruence.
Qed.

(** Patagonia: likewise, with the room amenities. *)
Lemma Patagonia_parse_collections dto h :
  Patagonia.parse dto = Ok h →
  ∃ amenities room,
    getitem dto "amenities" = Ok amenities
    ∧ Amenities.general (Hotel.amenities h) = VList []
    ∧ Amenities.room (Hotel.amenities h) = VList room
    ∧ (amenities = VNone → room = []).
Proof.
  unfold Patagonia.parse. intros H. bind_inv H. injection H as <-. simpl.
  eexists _, _. repeat split. intros ->. simpl in *. congruence.
Qed.

(** C6.  Paperflies hands the amenity lists over as they come: on a record
    whose general amenities are null, [parse] succeeds and the general
    amenities of the result are null, where Acme and Patagonia put an empty
    list. *)
Theorem Paperflies_parse_keeps_null :
  ∃ h, Paperflies.parse paperflies_null_general = Ok h
    ∧ Amenities.general (Hotel.amenities h) = VNone.
Proof. eexists. split; reflexivity. Qed.





Example acme_sample_row :
  ∃ h r, Acme.parse sample_countries acme_sample = Ok h
    ∧ row_of_hotel h = Some r
    ∧ HotelRow.amenities r !! "general"
      = Some ["pool"; "business center"; "wifi"; "dry cleaning"].
Proof. eexists _, _. split; [reflexivity|]. split; [reflexivity|]. reflexivity. Qed.


Section Destination.
Context `{SetOrder} {P : Type} (reencode : P → P).


End Destination.


(** ** The Acme cleanup *)

Section Cleanup.

Implicit Types (r s t pre suf : string) (c d : ascii).

Lemma str_app_nil_r s : s +:+ "" = s.
Proof. induction s as [|c s IH]; [done|]. unfold String.app in *. simpl. by rewrite IH. Qed.

Lemma str_app_cons c s t : String c s +:+ t = String c (s +:+ t).
Proof. reflexivity. Qed.

Lemma str_app_assoc s t r : (s +:+ t) +:+ r = s +:+ (t +:+ r).
Proof.
  induction s as [|c s IH]; [done|]. rewrite !str_app_cons. by rewrite IH.
Qed.

Lemma str_length_app s t : String.length (s +:+ t) = String.length s + String.length t.
Proof. induction s as [|c s IH]; [done|]. rewrite str_app_cons. simpl. by rewrite IH. Qed.

Lemma str_get_app pre c suf :
  String.get (String.length pre) (pre +:+ String c suf) = Some c.
Proof. induction pre as [|d pre IH]; [done|]. rewrite str_app_cons. simpl. exact IH. Qed.


Lemma camel_spaced_cons c d s :
  camel_spaced (String c (String d s))
  = if boundary c d then String c (String " " (camel_spaced (String d s)))
    else String c (camel_spaced (String d s)).
Proof. reflexivity. Qed.

Lemma has_boundary_cons c d s :
  has_boundary (String c (String d s)) = boundary c d || has_boundary (String d s).
Proof. reflexivity. Qed.

(** The loop, started anywhere in the text, appends the spaced remainder. *)
Lemma foldl_camel_step suf pre acc :
  foldl (camel_step (pre +:+ suf)) acc (seq (String.length pre) (String.length suf))
  = acc +:+ camel_spaced suf.
Proof.
  revert pre acc. induction suf as [|c suf IH]; intros pre acc.
  - simpl. by rewrite str_app_nil_r.
  - cbn [String.length seq foldl]. unfold camel_step at 2.
    rewrite str_get_app.
    assert (pre +:+ String c suf = (pre +:+ String c "") +:+ suf) as Eapp
      by by rewrite str_app_assoc.
    assert (S (String.length pre) = String.length (pre +:+ String c "")) as Elen
      by (rewrite str_length_app; simpl; lia).
    destruct suf as [|d suf].
    + simpl. rewrite str_length_app. simpl.
      replace (String.length pre + 1 <? String.length pre + 1) with false
        by (symmetry; apply Nat.ltb_ge; lia).
      simpl. done.
    + replace (String.length pre + 1 <? String.length (pre +:+ String c (String d suf)))
        with true by (symmetry; apply Nat.ltb_lt; rewrite str_length_app; simpl; lia).
      replace (String.get (String.length pre + 1) (pre +:+ String c (String d suf)))
        with (Some d).
      2:{ rewrite Eapp, Nat.add_1_r, Elen. by rewrite str_get_app. }
      rewrite Eapp, Elen, IH. rewrite camel_spaced_cons. unfold boundary.
      cbn [andb]. destruct (Text.islower c && Text.isupper d).
      * by rewrite !str_app_assoc.
      * by rewrite !str_app_assoc.
Qed.

Lemma camel_loop_spaced r :
  foldl (camel_step r) "" (seq 0 (String.length r)) = camel_spaced r.
Proof. exact (foldl_camel_step r "" ""). Qed.



Lemma join_head sep c w ws :
  Text.join sep (String c w :: ws) = String c (Text.join sep (w :: ws)).
Proof. destruct ws; reflexivity. Qed.




(** *** Trimming and lowering *)

Lemma isupper_lower_char c : Text.isupper (Text.lower_char c) = false.
Proof. destruct c as [[] [] [] [] [] [] [] []]; reflexivity. Qed.

Lemma isspace_lower_char c : Text.isspace (Text.lower_char c) = Text.isspace c.
Proof. destruct c as [[] [] [] [] [] [] [] []]; reflexivity. Qed.


Lemma lstrip_lower s : Text.lstrip (Text.lower s) = Text.lower (Text.lstrip s).
Proof.
  induction s as [|c s IH]; [done|]. simpl. rewrite isspace_lower_char.
  by destruct (Text.isspace c).
Qed.

Lemma rstrip_lower s : Text.rstrip (Text.lower s) = Text.lower (Text.rstrip s).
Proof.
  induction s as [|c s IH]; [done|]. simpl. rewrite IH, isspace_lower_char.
  destruct (Text.rstrip s); simpl; [by destruct (Text.isspace c)|done].
Qed.

Lemma strip_of_lower s : Text.strip (Text.lower s) = Text.lower (Text.strip s).
Proof. unfold Text.strip. by rewrite lstrip_lower, rstrip_lower. Qed.

Lemma rstrip_idem s : Text.rstrip (Text.rstrip s) = Text.rstrip s.
Proof.
  induction s as [|c s IH]; [done|]. simpl.
  destruct (Text.rstrip s) as [|d t] eqn:E.
  - destruct (Text.isspace c) eqn:Ec; simpl; [done|]. by rewrite Ec.
  - simpl in *. by rewrite IH.
Qed.

Lemma lstrip_head s :
  Text.lstrip s = "" ∨ ∃ c t, Text.lstrip s = String c t ∧ Text.isspace c = false.
Proof.
  induction s as [|c s IH]; [by left|]. simpl.
  destruct (Text.isspace c) eqn:E; [done|]. right. eauto.
Qed.

Lemma rstrip_head c t :
  Text.isspace c = false → ∃ u, Text.rstrip (String c t) = String c u.
Proof. intros E. simpl. rewrite E. destruct (Text.rstrip t); eauto. Qed.

Lemma strip_idem s : Text.strip (Text.strip s) = Text.strip s.
Proof.
  unfold Text.strip.
  assert (Text.lstrip (Text.rstrip (Text.lstrip s)) = Text.rstrip (Text.lstrip s)) as ->.
  { destruct (lstrip_head s) as [->|(c & t & -> & E)]; [done|].
    destruct (rstrip_head c t E) as [u ->]. simpl. by rewrite E. }
  apply rstrip_idem.
Qed.


End Cleanup.



(** * More about the code *)

(** ** The scalar reducer, continued *)

Section LongestContentMore.

Implicit Types (l a b : list value) (t w x i : value).

Lemma longest_step_null t : longest_step t VNone = t.
Proof. unfold longest_step. destruct t; reflexivity. Qed.

Lemma foldl_longest_drop_nulls l t :
  foldl longest_step t l
  = foldl longest_step t (filter (fun x => is_None x = false) l).
Proof.
  revert t. induction l as [|i l IH]; intros t; [done|].
  rewrite filter_cons. destruct i; simpl; try apply IH.
  rewrite longest_step_null. apply IH.
Qed.

(** X1.  Null candidates are transparent: as long as one candidate is not
    null, the group and the group without its nulls merge to the same
    value. *)
Theorem longest_content_ignores_null (content_list : list value) (default_value : value) :
  filter (fun x => is_None x = false) content_list ≠ [] →
  longest_content content_list default_value
  = longest_content (filter (fun x => is_None x = false) content_list) default_value.
Proof.
  intros Hne.
  destruct content_list as [|x l]; [done|].
  destruct (filter _ (x :: l)) as [|y k] eqn:E; [done|].
  rewrite !longest_content_cons, <- E. apply foldl_longest_drop_nulls.
Qed.

(** X2.  The default is the answer for the empty group only: a group with a
    candidate merges to one of its candidates. *)
Theorem longest_content_is_candidate (content_list : list value) (default_value : value) :
  content_list ≠ [] →
  longest_content content_list default_value ∈ content_list.
Proof. apply longest_content_elem. Qed.

End LongestContentMore.

(** X1, witness: two names between nulls. *)
Lemma longest_content_ignores_null_witness :
  longest_content [VNone; VStr "Hilton"; VNone; VStr "Hilton Tokyo"] VNone
  = longest_content [VStr "Hilton"; VStr "Hilton Tokyo"] VNone.
Proof.
  apply (longest_content_ignores_null
           [VNone; VStr "Hilton"; VNone; VStr "Hilton Tokyo"] VNone).
  discriminate.
Defined.

(** X2, witness: a null and an empty list, with a default that is neither. *)
Lemma longest_content_is_candidate_witness :
  longest_content [VNone; VList []] (VStr "unset") ∈ [VNone; VList []].
Proof.
  apply (longest_content_is_candidate [VNone; VList []] (VStr "unset")).
  discriminate.
Defined.

Section LongestLists.

Implicit Types (l a b : list value) (t w x i : value).

(** The loop from a tracked candidate whose string form and measured text
    put it on the same side of every later candidate. *)
Lemma foldl_longest_tracked_alike l t :
  t ≠ VNone →
  Forall (fun x => String.length (py_str t) < weight x ↔ weight t < weight x) l →
  ∃ a w b, t :: l = a ++ w :: b
    ∧ foldl longest_step t l = w
    ∧ Forall (fun x => weight x < weight w) a
    ∧ Forall (fun x => weight x ≤ weight w) b.
Proof.
  revert t. induction l as [|i l IH]; intros t Ht Hl.
  - exists [], t, []. repeat split; auto.
  - apply Forall_cons in Hl as [Hi Hl]. simpl.
    rewrite (longest_step_tracked _ _ Ht).
    destruct (Nat.ltb_spec (String.length (py_str t)) (weight i)) as [Hlt|Hge].
    + destruct (weight_pos i) as [Hin Hpi]; [lia|].
      destruct (foldl_longest_tracked l i Hin Hpi) as (a & w & b & E & R & _ & Ha & Hb).
      assert (Hiw : weight i ≤ weight w).
      { destruct a as [|y a]; simpl in E; injection E as E1 E2.
        - rewrite E1. lia.
        - subst y. apply Forall_cons in Ha as [? _]. lia. }
      exists (t :: a), w, b. rewrite <- app_comm_cons, <- E.
      repeat split; auto. constructor; [|done]. apply Hi in Hlt. lia.
    + destruct (IH t Ht Hl) as (a & w & b & E & R & Ha & Hb).
      assert (weight i ≤ weight t) as Hit.
      { destruct (Nat.le_gt_cases (weight i) (weight t)) as [?|Hgt]; [done|].
        apply Hi in Hgt. lia. }
      destruct a as [|y a]; simpl in E; injection E as E1 E2.
      * exists [], t, (i :: l). subst w b. repeat split; auto.
      * exists (y :: i :: a), w, b. subst y l.
        apply Forall_cons in Ha as [? ?].
        repeat split; auto. repeat constructor; auto; lia.
Qed.

Lemma repr_length s : 2 ≤ String.length (Text.repr s).
Proof. unfold Text.repr. simpl. rewrite str_length_app. simpl. lia. Qed.

Lemma join_reprs_length (ss : list string) :
  ss ≠ [] → 2 ≤ String.length (Text.join ", " (map py_repr (map VStr ss))).
Proof.
  destruct ss as [|s ss]; [done|]. intros _. simpl.
  destruct (map py_repr (map VStr ss)).
  - apply repr_length.
  - rewrite str_length_app. pose proof (repr_length s). lia.
Qed.

(** A list of texts reads [[]] when it is empty, and otherwise has a string
    form of four characters at least, which is what the reducer measures. *)
Lemma weight_text_list (ss : list string) :
  (ss = [] ∧ weight (VList (map VStr ss)) = 0
   ∧ String.length (py_str (VList (map VStr ss))) = 2)
  ∨ (4 ≤ weight (VList (map VStr ss))
     ∧ String.length (py_str (VList (map VStr ss))) = weight (VList (map VStr ss))).
Proof.
  destruct ss as [|s ss]; [left; by repeat split|]. right.
  assert (4 ≤ String.length (py_str (VList (map VStr (s :: ss))))) as Hlen.
  { change (py_str (VList (map VStr (s :: ss))))
      with ("[" +:+ Text.join ", " (map py_repr (map VStr (s :: ss))) +:+ "]").
    rewrite !str_length_app. simpl String.length.
    pose proof (join_reprs_length (s :: ss)) as Hj. simpl in Hj. simpl.
    specialize (Hj ltac:(done)). lia. }
  assert (String.length (py_str (VList (map VStr (s :: ss))))
          = weight (VList (map VStr (s :: ss)))) as E.
  { apply plain_weight.
    - intros E. apply (f_equal (String.get 0)) in E. discriminate E.
    - intros E. rewrite E in Hlen. simpl in Hlen. lia. }
  split; [lia|done].
Qed.

(** X3.  Booking conditions, lists of texts: the first list whose string
    form is longest wins, the empty lists counting as nothing, without any
    condition on the list that comes first. *)
Theorem longest_content_text_lists (conditions : list (list string))
    (default_value : value) :
  conditions ≠ [] →
  ∃ a w b,
    map (fun ss => VList (map VStr ss)) conditions = a ++ w :: b
    ∧ longest_content (map (fun ss => VList (map VStr ss)) conditions) default_value = w
    ∧ Forall (fun x => weight x < weight w) a
    ∧ Forall (fun x => weight x ≤ weight w) b.
Proof.
  destruct conditions as [|ss0 conditions]; [done|]. intros _.
  rewrite map_cons, longest_content_cons. simpl foldl. rewrite longest_step_None.
  apply foldl_longest_tracked_alike; [done|].
  apply Forall_forall. intros x (ss & -> & _)%list_elem_of_fmap.
  destruct (weight_text_list ss0) as [(_ & W0 & L0)|(W0 & L0)],
           (weight_text_list ss) as [(_ & W & _)|(W & _)]; lia.
Qed.

End LongestLists.

(** X3, witness: Acme and Patagonia give no booking conditions, Paperflies
    gives two. *)
Lemma longest_content_text_lists_witness :
  longest_content
    [VList []; VList [VStr "No pets"; VStr "Pay at desk"]; VList []] VNone
  = VList [VStr "No pets"; VStr "Pay at desk"].
Proof.
  destruct (longest_content_text_lists [[]; ["No pets"; "Pay at desk"]; []] VNone)
    as (a & w & b & E & R & Ha & Hb); [discriminate|].
  simpl in R. rewrite R. clear R.
  destruct a as [|x [|y [|z a]]]; simpl in E; simplify_eq; try reflexivity.
  - exfalso. apply Forall_cons in Hb as [Hb _]. vm_compute in Hb. lia.
  - exfalso. apply Forall_cons in Ha as [_ Ha]. apply Forall_cons in Ha as [Ha _].
    vm_compute in Ha. lia.
  - destruct a; discriminate.
Defined.

(** ** The Acme cleanup, continued *)

Section CleanupMore.

Implicit Types (r s : string) (c d : ascii).

Lemma lower_char_idem c : Text.lower_char (Text.lower_char c) = Text.lower_char c.
Proof.
  unfold Text.lower_char at 1. by rewrite isupper_lower_char.
Qed.

Lemma lower_idem s : Text.lower (Text.lower s) = Text.lower s.
Proof. induction s as [|c s IH]; [done|]. simpl. by rewrite lower_char_idem, IH. Qed.


Lemma camel_spaced_no_boundary s : has_boundary s = false → camel_spaced s = s.
Proof.
  induction s as [|c s IH]; [done|]. destruct s as [|d s]; [done|].
  rewrite has_boundary_cons, camel_spaced_cons.
  intros [-> Hb]%orb_false_iff. by rewrite (IH Hb).
Qed.

Lemma acme_amenities_modify_eq r :
  acme_amenities_modify r
  = Text.lower (Text.strip (if String.length r <=? 5 then r else camel_spaced r)).
Proof.
  unfold acme_amenities_modify. destruct (String.length r <=? 5); [done|].
  by rewrite camel_loop_spaced.
Qed.


(** X5.  A facility without a lowercase letter followed by an uppercase one
    is only trimmed and lowered, whatever its length. *)
Theorem acme_amenities_modify_no_boundary (r : string) :
  has_boundary r = false →
  acme_amenities_modify r = Text.lower (Text.strip r).
Proof.
  intros Hb. rewrite acme_amenities_modify_eq, (camel_spaced_no_boundary r Hb).
  by destruct (String.length r <=? 5).
Qed.

End CleanupMore.

(** X5, witness: a facility in capitals. *)
Lemma acme_amenities_modify_no_boundary_witness :
  acme_amenities_modify " BREAKFAST " = "breakfast".
Proof.
  rewrite (acme_amenities_modify_no_boundary " BREAKFAST "); reflexivity.
Defined.

(** ** The adapters, continued *)

Section AdaptersMore.

Lemma getitem_Ok v k x :
  getitem v k = Ok x ↔ ∃ d, v = VDict d ∧ dict_get d k = Some x.
Proof.
  unfold getitem. destruct v; try (split; [done|by intros (? & ? & ?)]).
  destruct (dict_get d k) as [y|] eqn:E.
  - split; [intros [= <-]; eauto|]. intros (d' & [= <-] & E'). congruence.
  - split; [done|]. intros (d' & [= <-] & E'). congruence.
Qed.

Lemma getitem_not_dict v k : (∀ d, v ≠ VDict d) → getitem v k = Raise TypeError.
Proof. intros Hv. destruct v; try done. by destruct (Hv d). Qed.

Lemma getitem_missing d k : dict_get d k = None → getitem (VDict d) k = Raise KeyError.
Proof. intros E. simpl. by rewrite E. Qed.

(** X6.  What every adapter refuses at once: a record that is not a JSON
    object is a TypeError, an object without the supplier's id field a
    KeyError. *)
Theorem parse_rejects (countries_get : value → option string) (dto : value) :
  ((∀ d, dto ≠ VDict d) →
   Acme.parse countries_get dto = Raise TypeError
   ∧ Paperflies.parse dto = Raise TypeError
   ∧ Patagonia.parse dto = Raise TypeError)
  ∧ (∀ d, dto = VDict d →
       (dict_get d "Id" = None → Acme.parse countries_get dto = Raise KeyError)
       ∧ (dict_get d "hotel_id" = None → Paperflies.parse dto = Raise KeyError)
       ∧ (dict_get d "id" = None → Patagonia.parse dto = Raise KeyError)).
Proof.
  split.
  - intros Hv. unfold Acme.parse, Paperflies.parse, Patagonia.parse.
    by rewrite !(getitem_not_dict dto _ Hv).
  - intros d ->. unfold Acme.parse, Paperflies.parse, Patagonia.parse.
    repeat split; intros E; by rewrite (getitem_missing d _ E).
Qed.

(** X7.  The contract of the Acme adapter: when [parse] succeeds the record
    is an object that has all ten fields, the country is known to the
    table, each field of the hotel is the raw value of its field, and the
    hotel has no room amenities, no images and no booking conditions. *)
Theorem Acme_parse_contract (countries_get : value → option string)
    (dto : value) (h : Hotel.t) :
  Acme.parse countries_get dto = Ok h →
  ∃ d destination country country_name facilities,
    dto = VDict d
    ∧ dict_get d "Id" = Some (Hotel.id h)
    ∧ dict_get d "DestinationId" = Some destination
    ∧ Hotel.destination_id h = py_str destination
    ∧ dict_get d "Name" = Some (Hotel.name h)
    ∧ dict_get d "Latitude" = Some (Location.lat (Hotel.location h))
    ∧ dict_get d "Longitude" = Some (Location.lng (Hotel.location h))
    ∧ dict_get d "Address" = Some (Location.address (Hotel.location h))
    ∧ dict_get d "City" = Some (Location.city (Hotel.location h))
    ∧ dict_get d "Country" = Some country
    ∧ countries_get country = Some country_name
    ∧ Location.country (Hotel.location h) = VStr country_name
    ∧ dict_get d "Description" = Some (Hotel.description h)
    ∧ dict_get d "Facilities" = Some facilities
    ∧ Amenities.room (Hotel.amenities h) = VList []
    ∧ Hotel.images h = Images.mk [] [] []
    ∧ Hotel.booking_conditions h = VList [].
Proof.
  unfold Acme.parse. intros H. bind_inv H. injection H as <-. simpl.
  repeat match goal with
         | E : getitem _ _ = Ok _ |- _ => apply getitem_Ok in E as (? & ? & E)
         end.
  subst dto.
  repeat match goal with
         | E : VDict _ = VDict _ |- _ => injection E as ->
         | E : Ok _ = Ok _ |- _ => injection E as <-
         end.
  destruct (countries_get _) as [n|] eqn:Ec; [|discriminate].
  match goal with E : Ok _ = Ok _ |- _ => injection E as <- end.
  eexists _, _, _, _, _. repeat split; eauto.
Qed.

(** X8.  A country the table does not know makes the Acme adapter raise
    KeyError, when the fields read before it are there. *)
Theorem Acme_parse_unknown_country (countries_get : value → option string)
    (d : list (string * value)) (country : value) :
  Forall (fun k => is_Some (dict_get d k))
    ["Id"; "DestinationId"; "Name"; "Latitude"; "Longitude"; "Address"; "City"] →
  dict_get d "Country" = Some country →
  countries_get country = None →
  Acme.parse countries_get (VDict d) = Raise KeyError.
Proof.
  intros Hk Hc Hn. unfold Acme.parse.
  repeat (apply Forall_cons in Hk as [[? HE] Hk]; simpl; rewrite HE; simpl; clear HE).
  rewrite Hc. simpl. by rewrite Hn.
Qed.

Lemma acme_amenities_modify_any_clean r v :
  acme_amenities_modify_any r = Ok v →
  ∃ s, v = VStr s ∧ Text.strip s = s ∧ Text.lower s = s.
Proof.
  assert (∀ s, Text.strip (Text.lower (Text.strip s)) = Text.lower (Text.strip s)
               ∧ Text.lower (Text.lower (Text.strip s)) = Text.lower (Text.strip s)) as Hclean.
  { intros s. split; [by rewrite strip_of_lower, strip_idem|apply lower_idem]. }
  destruct r; simpl; try done.
  - intros [= <-]. eexists. split; [done|]. rewrite acme_amenities_modify_eq. apply Hclean.
  - destruct (length l <=? 5); [done|]. intros H. bind_inv H. injection H as <-.
    eexists. split; [done|]. apply Hclean.
  - by destruct (length d <=? 5).
Qed.

(** X9.  The general amenities the Acme adapter produces are texts in
    normal form, trimmed and in lowercase, one for each facility of the
    record, and none when the facilities are null. *)
Theorem Acme_parse_general_clean (countries_get : value → option string)
    (dto : value) (h : Hotel.t) :
  Acme.parse countries_get dto = Ok h →
  ∃ facilities general,
    getitem dto "Facilities" = Ok facilities
    ∧ Amenities.general (Hotel.amenities h) = VList general
    ∧ Forall (fun v => ∃ s, v = VStr s ∧ Text.strip s = s ∧ Text.lower s = s) general
    ∧ (facilities = VNone → general = [])
    ∧ (∀ rs, iterate facilities = Ok rs → length general = length rs).
Proof.
  unfold Acme.parse. intros H. bind_inv H. injection H as <-. simpl.
  match goal with
  | E : getitem dto "Facilities" = Ok ?f, G : (if is_None ?f then _ else _) = Ok ?g |- _ =>
      exists f, g; rename G into Hg
  end.
  split; [done|]. split; [done|].
  destruct (is_None _) eqn:En.
  - injection Hg as <-. split; [constructor|]. split; [done|].
    intros rs. match goal with |- iterate ?f = _ → _ => by destruct f end.
  - bind_inv Hg. apply traverse_Ok in Hg. split; [|split].
    + apply Forall_forall. intros v Hv.
      apply list_elem_of_lookup in Hv as [i Hi].
      destruct (Forall2_lookup_r _ _ _ _ _ Hg Hi) as (r & _ & Hr).
      by apply acme_amenities_modify_any_clean in Hr.
    + intros ->. done.
    + intros rs [= <-]. symmetry. by eapply Forall2_length.
Qed.

(** X10.  The Patagonia adapter: the room amenities are the raw texts
    trimmed and lowered, one for one, there are no general amenities and no
    booking conditions, and city and country are left null. *)
Theorem Patagonia_parse_room_clean (dto : value) (h : Hotel.t) :
  Patagonia.parse dto = Ok h →
  ∃ amenities room,
    getitem dto "amenities" = Ok amenities
    ∧ Amenities.room (Hotel.amenities h) = VList room
    ∧ (amenities = VNone → room = [])
    ∧ (∀ rs, iterate amenities = Ok rs →
         Forall2 (fun r v => ∃ s, r = VStr s ∧ v = VStr (Text.lower (Text.strip s)))
           rs room)
    ∧ Amenities.general (Hotel.amenities h) = VList []
    ∧ Hotel.booking_conditions h = VList []
    ∧ Location.city (Hotel.location h) = VNone
    ∧ Location.country (Hotel.location h) = VNone.
Proof.
  unfold Patagonia.parse. intros H. bind_inv H. injection H as <-. simpl.
  match goal with
  | E : getitem dto "amenities" = Ok ?f, G : (if is_None ?f then _ else _) = Ok ?g |- _ =>
      exists f, g; rename G into Hg
  end.
  repeat split; try done.
  - intros ->. simpl in Hg. by injection Hg as <-.
  - intros rs Hrs. destruct (is_None _) eqn:En.
    { match type of Hrs with iterate ?f = _ => by destruct f end. }
    rewrite Hrs in Hg. simpl in Hg. apply traverse_Ok in Hg.
    eapply Forall2_impl; [exact Hg|]. intros r v Hr.
    destruct r; try discriminate. injection Hr as <-. eauto.
Qed.

Lemma image_entry_Ok lk dk data v :
  image_entry lk dk data = Ok v →
  ∃ l de, getitem data lk = Ok l ∧ getitem data dk = Ok de
    ∧ v = VDict [("link", l); ("description", de)].
Proof. unfold image_entry. intros H. bind_inv H. injection H as <-. eauto. Qed.

Lemma images_kwargs_Ok lk dk d kwargs :
  images_kwargs (fun images => ds ← iterate images; traverse (image_entry lk dk) ds)
    d = Ok kwargs →
  ∃ im, d = VDict im
    ∧ Forall2 (fun kv kw =>
                 fst kw = fst kv
                 ∧ ∃ ds, iterate (snd kv) = Ok ds
                     ∧ Forall2 (fun data v =>
                                  ∃ l de, getitem data lk = Ok l
                                    ∧ getitem data dk = Ok de
                                    ∧ v = VDict [("link", l); ("description", de)])
                         ds (snd kw)) im kwargs.
Proof.
  unfold images_kwargs. intros H. bind_inv H.
  destruct d; try discriminate. match goal with E : items _ = Ok _ |- _ => injection E as <- end.
  eexists. split; [done|]. apply traverse_Ok in H.
  eapply Forall2_impl; [exact H|]. intros kv kw Hkw. simpl in Hkw.
  bind_inv Hkw. injection Hkw as <-. simpl. split; [done|].
  match goal with E : traverse _ _ = Ok _ |- _ => apply traverse_Ok in E; rename E into Ht end.
  eexists. split; [done|].
  eapply Forall2_impl; [exact Ht|]. intros data v. apply image_entry_Ok.
Qed.

Lemma kw_get_dict_get (im : list (string * value)) (kwargs : list (string * list value))
    (Q : value → list value → Prop) f :
  Forall2 (fun kv kw => fst kw = fst kv ∧ Q (snd kv) (snd kw)) im kwargs →
  match dict_get im f with
  | None => kw_get kwargs f = []
  | Some raw => Q raw (kw_get kwargs f)
  end.
Proof.
  induction 1 as [|[k v] [k' v'] im kwargs [Hk Hq] _ IH]; [done|].
  simpl in *. subst k'. by destruct (String.eqb k f).
Qed.

Lemma images_converted_intro lk dk dto im_raw kwargs images (h : Hotel.t) :
  getitem dto "images" = Ok im_raw →
  images_kwargs (fun images => ds ← iterate images; traverse (image_entry lk dk) ds)
    im_raw = Ok kwargs →
  Images_of_kwargs kwargs = Ok images →
  Hotel.images h = images →
  images_converted lk dk dto h.
Proof.
  intros Hget Hkw Him Hh. apply images_kwargs_Ok in Hkw as (im & -> & Hf).
  unfold Images_of_kwargs in Him.
  destruct (forallb _ kwargs) eqn:Hall; [|discriminate]. injection Him as <-.
  exists im. split; [done|]. split.
  - apply Forall_forall. intros kv Hkv.
    apply list_elem_of_lookup in Hkv as [i Hi].
    destruct (Forall2_lookup_l _ _ _ _ _ Hf Hi) as (kw & Hkw & <- & _).
    rewrite forallb_forall in Hall.
    assert (In kw kwargs) as Hin by (apply list_elem_of_In, list_elem_of_lookup; eauto).
    apply Hall in Hin. by apply bool_decide_eq_true in Hin.
  - rewrite Hh. unfold fields_Images, images_field.
    repeat constructor; simpl;
      apply (kw_get_dict_get im kwargs
               (fun raw vs => ∃ ds, iterate raw = Ok ds ∧ Forall2 _ ds vs) _ Hf).
Qed.

(** X11.  Paperflies and Patagonia convert the images entry for entry: each
    category of the record must be one of rooms, site and amenities, each
    image becomes a dict with exactly a link and a description, read under
    link and caption for Paperflies and under url and description for
    Patagonia, and a category the record lacks is an empty list. *)
Theorem parse_images_converted (dto : value) (h : Hotel.t) :
  (Paperflies.parse dto = Ok h → images_converted "link" "caption" dto h)
  ∧ (Patagonia.parse dto = Ok h → images_converted "url" "description" dto h).
Proof.
  split.
  - unfold Paperflies.parse. intros H. bind_inv H. injection H as <-.
    eapply (images_converted_intro "link" "caption"); eauto.
  - unfold Patagonia.parse. intros H. bind_inv H. injection H as <-.
    eapply (images_converted_intro "url" "description"); eauto.
Qed.

(** X12.  The contract of the Paperflies adapter: when [parse] succeeds the
    scalar fields are the raw values of the record, the address and the
    country are read in its location object, latitude, longitude and city
    are null, and the amenities and the booking conditions are handed over
    exactly as the supplier sent them. *)
Theorem Paperflies_parse_contract (dto : value) (h : Hotel.t) :
  Paperflies.parse dto = Ok h →
  ∃ destination location amenities,
    getitem dto "hotel_id" = Ok (Hotel.id h)
    ∧ getitem dto "destination_id" = Ok destination
    ∧ Hotel.destination_id h = py_str destination
    ∧ getitem dto "hotel_name" = Ok (Hotel.name h)
    ∧ getitem dto "location" = Ok location
    ∧ getitem location "address" = Ok (Location.address (Hotel.location h))
    ∧ getitem location "country" = Ok (Location.country (Hotel.location h))
    ∧ Location.lat (Hotel.location h) = VNone
    ∧ Location.lng (Hotel.location h) = VNone
    ∧ Location.city (Hotel.location h) = VNone
    ∧ getitem dto "details" = Ok (Hotel.description h)
    ∧ getitem dto "amenities" = Ok amenities
    ∧ getitem amenities "general" = Ok (Amenities.general (Hotel.amenities h))
    ∧ getitem amenities "room" = Ok (Amenities.room (Hotel.amenities h))
    ∧ getitem dto "booking_conditions" = Ok (Hotel.booking_conditions h).
Proof.
  unfold Paperflies.parse. intros H. bind_inv H. injection H as <-. simpl.
  repeat match goal with
         | E : Ok _ = Ok _ |- _ => injection E as <-
         end.
  simplify_eq. eexists _, _, _. repeat split; eauto.
Qed.

End AdaptersMore.

(** X6, witness: a JSON array where a record is expected. *)
Lemma parse_rejects_witness :
  Acme.parse sample_countries (VList []) = Raise TypeError
  ∧ Paperflies.parse (VList []) = Raise TypeError
  ∧ Patagonia.parse (VList []) = Raise TypeError.
Proof. apply (proj1 (parse_rejects sample_countries (VList []))). discriminate. Defined.

(** X7, witness: the Acme sample. *)
Lemma Acme_parse_contract_witness :
  ∃ h, Acme.parse sample_countries acme_sample = Ok h
    ∧ Location.country (Hotel.location h) = VStr "Singapore"
    ∧ Hotel.images h = Images.mk [] [] [].
Proof.
  eexists. split; [reflexivity|].
  destruct (Acme_parse_contract sample_countries acme_sample _ eq_refl)
    as (d & de & c & n & f & _ & _ & _ & _ & _ & _ & _ & _ & _ & _ & _ & Hc & _ & _ & _ & Hi & _).
  split; [reflexivity|exact Hi].
Defined.

(** X8, witness: a hotel in Japan, with a table that knows Singapore only. *)
Lemma Acme_parse_unknown_country_witness :
  Acme.parse sample_countries (VDict acme_unknown_country) = Raise KeyError.
Proof.
  apply (Acme_parse_unknown_country sample_countries acme_unknown_country (VStr "JP")).
  - repeat constructor; by eexists.
  - reflexivity.
  - reflexivity.
Defined.

(** X9, witness: the facilities of the Acme sample. *)
Lemma Acme_parse_general_clean_witness :
  ∃ h general, Acme.parse sample_countries acme_sample = Ok h
    ∧ Amenities.general (Hotel.amenities h) = VList general
    ∧ length general = 4.
Proof.
  eexists.
  destruct (Acme_parse_general_clean sample_countries acme_sample _ eq_refl)
    as (f & general & Hf & Hg & _ & _ & Hlen).
  exists general. split; [reflexivity|]. split; [exact Hg|].
  injection Hf as <-. apply (Hlen _ eq_refl).
Defined.

(** X10, witness: the amenities of the Patagonia sample. *)
Lemma Patagonia_parse_room_clean_witness :
  ∃ h, Patagonia.parse patagonia_sample = Ok h
    ∧ Amenities.room (Hotel.amenities h)
      = VList [VStr "aircon"; VStr "tv"; VStr "coffee machine"].
Proof.
  eexists. split; [reflexivity|].
  destruct (Patagonia_parse_room_clean patagonia_sample _ eq_refl)
    as (a & room & _ & Hr & _).
  rewrite Hr. simpl in Hr. exact (eq_sym Hr).
Defined.

(** X11, witness: the images of the Patagonia sample. *)
Lemma parse_images_converted_witness :
  ∃ h, Patagonia.parse patagonia_sample = Ok h
    ∧ images_converted "url" "description" patagonia_sample h.
Proof.
  eexists. split; [reflexivity|].
  apply (proj2 (parse_images_converted patagonia_sample _)). reflexivity.
Defined.

(** X12, witness: the Paperflies sample, whose general amenities are null. *)
Lemma Paperflies_parse_contract_witness :
  ∃ h amenities, Paperflies.parse paperflies_null_general = Ok h
    ∧ getitem paperflies_null_general "amenities" = Ok amenities
    ∧ getitem amenities "general" = Ok (Amenities.general (Hotel.amenities h)).
Proof.
  eexists.
  destruct (Paperflies_parse_contract paperflies_null_general _ eq_refl)
    as (de & lo & am & _ & _ & _ & _ & _ & _ & _ & _ & _ & _ & _ & Ha & Hg & _).
  exists am. split; [reflexivity|]. split; [exact Ha|exact Hg].
Defined.

(** ** Fetching *)

Section Fetch.
Context (parse : value → result Hotel.t).

Lemma traverse_Ok_iff (dtos : list value) (hs : list Hotel.t) :
  traverse parse dtos = Ok hs ↔ Forall2 (fun d h => parse d = Ok h) dtos hs.
Proof.
  split; [apply traverse_Ok|].
  induction 1 as [|d h dtos hs Hd _ IH]; [done|]. simpl. rewrite Hd. simpl.
  by rewrite IH.
Qed.

Lemma traverse_Raise pre d post e :
  Forall (fun x => ∃ h, parse x = Ok h) pre → parse d = Raise e →
  traverse parse (pre ++ d :: post) = Raise e.
Proof.
  intros Hpre Hd. induction Hpre as [|x pre [h Hx] _ IH]; simpl.
  - by rewrite Hd.
  - rewrite Hx. simpl. by rewrite IH.
Qed.

(** X13.  Fetching is all or nothing: the answer holds one hotel for each
    record of the response, in order, exactly when every record parses, and
    otherwise the exception of the first record that does not parse is the
    exception of the whole fetch.  A response that is null is a TypeError. *)
Theorem fetch_all_or_nothing (dtos : list value) :
  (∀ hs, fetch parse (VList dtos) = Ok hs
         ↔ Forall2 (fun d h => parse d = Ok h) dtos hs)
  ∧ (∀ pre d post e,
       dtos = pre ++ d :: post →
       Forall (fun x => ∃ h, parse x = Ok h) pre →
       parse d = Raise e →
       fetch parse (VList dtos) = Raise e)
  ∧ fetch parse VNone = Raise TypeError.
Proof.
  split; [|split; [|done]].
  - intros hs. apply traverse_Ok_iff.
  - intros pre d post e -> Hpre Hd. by apply traverse_Raise.
Qed.

End Fetch.

(** X13, witness: a good record followed by one that is not an object. *)
Lemma fetch_all_or_nothing_witness :
  fetch Patagonia.parse (VList [patagonia_sample; VStr "oops"; patagonia_sample])
  = Raise TypeError.
Proof.
  apply (proj1 (proj2 (fetch_all_or_nothing Patagonia.parse
                         [patagonia_sample; VStr "oops"; patagonia_sample]))
           [patagonia_sample] (VStr "oops") [patagonia_sample] TypeError).
  - reflexivity.
  - repeat constructor. by eexists.
  - reflexivity.
Defined.

(** ** find, continued *)

Section FindMore.
Context {P : Type} (reencode : P → P).

#[local] Abbreviation entry := (@HotelsService.entry P).
Implicit Types (hotels ret : list entry) (l hl dl : list string) (e x y : entry).

(** *** The filter arguments *)

Lemma split_on_cons sep s : ∃ w ws, Text.split_on sep s = w :: ws.
Proof.
  induction s as [|c s (w & ws & IH)]; simpl; [eauto|].
  destruct (Ascii.eqb c sep); [eauto|]. rewrite IH. eauto.
Qed.

Lemma join_split_on (sep : ascii) s :
  Text.join (String sep "") (Text.split_on sep s) = s.
Proof.
  induction s as [|c s IH]; [done|]. simpl.
  destruct (split_on_cons sep s) as (w & ws & E). rewrite E in *.
  destruct (Ascii.eqb_spec c sep) as [->|Hc].
  - change (Text.join (String sep "") ("" :: w :: ws))
      with (String sep (Text.join (String sep "") (w :: ws))). by rewrite IH.
  - rewrite join_head. by rewrite IH.
Qed.

Lemma split_on_no_sep (sep : ascii) s :
  Forall (fun w => Text.contains sep w = false) (Text.split_on sep s).
Proof.
  induction s as [|c s IH]; simpl; [by repeat constructor|].
  destruct (split_on_cons sep s) as (w & ws & E). rewrite E in *.
  apply Forall_cons in IH as [Hw Hws].
  destruct (Ascii.eqb_spec c sep) as [->|Hc].
  - by repeat constructor.
  - constructor; [|done]. simpl. rewrite Hw.
    destruct (Ascii.eqb_spec sep c); [congruence|done].
Qed.

(** X14.  The filter argument of [find]: only the word none gives no
    filter.  Any other text gives its comma-separated pieces, at least one,
    none of them with a comma in it, and joining them with commas gives the
    text back; the empty text gives one empty id. *)
Theorem id_list_pieces (s : string) :
  (HotelsService.id_list s = [] ↔ s = "none")
  ∧ (s ≠ "none" →
     Text.join "," (HotelsService.id_list s) = s
     ∧ Forall (fun w => Text.contains "," w = false) (HotelsService.id_list s))
  ∧ HotelsService.id_list "" = [""].
Proof.
  unfold HotelsService.id_list. split; [|split; [|done]].
  - destruct (String.eqb_spec s "none") as [->|Hs]; [done|].
    destruct (split_on_cons "," s) as (w & ws & ->). done.
  - intros Hs. destruct (String.eqb_spec s "none") as [|_]; [done|].
    split; [apply (join_split_on ","%char)|apply split_on_no_sep].
Qed.

(** *** Positions *)

Lemma positions_lt l s p : HotelsService.positions l !! s = Some p → p < length l.
Proof. intros [Hp _]%positions_Some. by apply lookup_lt_Some in Hp. Qed.

Lemma positions_NoDup l s p :
  NoDup l → (HotelsService.positions l !! s = Some p ↔ l !! p = Some s).
Proof.
  intros Hl. rewrite positions_Some. unfold is_position. split; [by intros [? _]|].
  intros Hp. split; [done|]. intros q Hq.
  by rewrite (NoDup_lookup l p q s Hl Hp Hq).
Qed.

(** X15.  Looking an id up in the positions of a list gives back an index
    at which the list holds that id, below the length of the list; and when
    the list repeats no id, the position of the id found at an index is
    that index. *)
Theorem positions_lookup (l : list string) (s : string) (p : nat) :
  (HotelsService.positions l !! s = Some p → l !! p = Some s ∧ p < length l)
  ∧ (NoDup l → l !! p = Some s → HotelsService.positions l !! s = Some p)
  ∧ (HotelsService.positions l !! s = None ↔ s ∉ l).
Proof.
  split; [|split].
  - intros Hp. split; [by apply positions_Some in Hp as [? _]|by eapply positions_lt].
  - intros Hl Hp. by apply positions_NoDup.
  - apply positions_None.
Qed.

End FindMore.

(** X14, witness: two ids. *)
Lemma id_list_pieces_witness :
  Text.join "," (@HotelsService.id_list "iJhz,SjyX") = "iJhz,SjyX"
  ∧ Forall (fun w => Text.contains "," w = false) (@HotelsService.id_list "iJhz,SjyX").
Proof. apply (proj1 (proj2 (id_list_pieces "iJhz,SjyX"))). discriminate. Defined.

(** X15, witness: the second of three ids. *)
Lemma positions_lookup_witness :
  HotelsService.positions ["iJhz"; "SjyX"; "f8c9"] !! "SjyX" = Some 1.
Proof.
  apply (proj1 (proj2 (positions_lookup ["iJhz"; "SjyX"; "f8c9"] "SjyX" 1))).
  - apply (bool_decide_eq_true_1 (NoDup ["iJhz"; "SjyX"; "f8c9"])). reflexivity.
  - reflexivity.
Defined.

Section FindOrder.
Context {P : Type} (reencode : P → P).

#[local] Abbreviation entry := (@HotelsService.entry P).
Implicit Types (hotels ret : list entry) (l hl dl : list string) (e x y : entry).

Lemma find_in_Ok_filter hotels hl dl ret :
  HotelsService.find_in reencode hotels hl dl = Ok ret → hl ≠ [] ∨ dl ≠ [].
Proof. destruct hl, dl; try done; intros _; [by right|by left|by left]. Qed.

(** X16.  The position 0 that stands for an id missing from a filter list
    never decides the order of an answer: when a list is given, every
    record of the answer is in it and is sorted by its true position; only
    when a list is not given do all records get 0 for it. *)
Theorem find_key_is_position hotels hl dl ret x :
  HotelsService.find_in reencode hotels hl dl = Ok ret →
  x ∈ ret →
  (hl ≠ [] →
   is_position hl (HotelsService.id x)
     (fst (HotelsService.sort_key (HotelsService.positions hl)
             (HotelsService.positions dl) x)))
  ∧ (dl ≠ [] →
     is_position dl (HotelsService.destination_id x)
       (snd (HotelsService.sort_key (HotelsService.positions hl)
               (HotelsService.positions dl) x)))
  ∧ (hl = [] →
     fst (HotelsService.sort_key (HotelsService.positions hl)
            (HotelsService.positions dl) x) = 0)
  ∧ (dl = [] →
     snd (HotelsService.sort_key (HotelsService.positions hl)
            (HotelsService.positions dl) x) = 0).
Proof.
  intros Hfind Hx. pose proof (find_in_Ok_filter _ _ _ _ Hfind) as Hne.
  eapply find_in_passes in Hx; [|done|done].
  apply to_records_passes in Hx as [Hid Hdest]. simpl.
  split; [|split; [|split]].
  - intros Hhl. destruct Hid as [Hid|?]; [|done].
    destruct (positions_or_zero hl (HotelsService.id x)) as [[? _]|?]; done.
  - intros Hdl. destruct Hdest as [Hd|?]; [|done].
    destruct (positions_or_zero dl (HotelsService.destination_id x)) as [[? _]|?]; done.
  - intros ->. done.
  - intros ->. done.
Qed.

Lemma filter_none {A} (Q : A → Prop) `{∀ a, Decision (Q a)} (xs : list A) :
  Forall (fun a => ¬ Q a) xs → filter Q xs = [].
Proof.
  induction 1 as [|a xs Ha _ IH]; [done|]. by rewrite filter_cons_False.
Qed.

(** X17.  On a catalog that holds hotels, ids that no record has give the
    empty answer, not an error; a destination filter that matches nothing
    does the same. *)
Theorem find_no_match hotels hl dl :
  hotels ≠ [] →
  (hl ≠ [] ∧ Forall (fun e => HotelsService.id e ∉ hl) hotels)
  ∨ (dl ≠ [] ∧ Forall (fun e => HotelsService.destination_id e ∉ dl) hotels) →
  HotelsService.find_in reencode hotels hl dl = Ok [].
Proof.
  intros _ Hno.
  assert (hl ≠ [] ∨ dl ≠ []) as Hne by (destruct Hno as [[? _]|[? _]]; auto).
  rewrite find_in_Ok by done.
  assert (filter (passes hl dl) hotels = []) as ->; [|done].
  apply filter_none. apply Forall_forall. intros e He [Hid Hdest].
  destruct Hno as [[Hhl Hall]|[Hdl Hall]]; rewrite Forall_forall in Hall;
    specialize (Hall e He).
  - by destruct Hid.
  - by destruct Hdest.
Qed.

Lemma sorted_same_key {A} (key : A → nat * nat) (xs : list A) k :
  Forall (fun u => key u = k) xs → HotelsService.sorted key xs = xs.
Proof.
  induction 1 as [|a xs Ha Hxs IH]; [done|]. simpl. rewrite IH.
  destruct Hxs as [|b xs Hb _]; [done|]. simpl.
  rewrite Ha, Hb. assert (HotelsService.key_le k k = true) as ->; [|done].
  apply key_le_spec. unfold pair_le. lia.
Qed.

(** X18.  One destination id and no hotel id, or one hotel id and no
    destination id, on a catalog that holds hotels: the answer is the
    matching records in the order of the catalog. *)
Theorem find_single_filter hotels (h d : string) :
  hotels ≠ [] →
  HotelsService.find_in reencode hotels [] [d]
  = Ok (HotelsService.to_records reencode
          (filter (fun e => HotelsService.destination_id e = d) hotels))
  ∧ HotelsService.find_in reencode hotels [h] []
    = Ok (HotelsService.to_records reencode
            (filter (fun e => HotelsService.id e = h) hotels)).
Proof.
  intros _. split.
  - rewrite find_in_Ok by (by right).
    assert (filter (passes [] [d]) hotels
            = filter (fun e => HotelsService.destination_id e = d) hotels) as ->.
    { apply list_filter_iff. intros e. unfold passes.
      rewrite list_elem_of_singleton. split; [by intros [_ [?|?]]|].
      intros ?. split; [by right|by left]. }
    f_equal. apply (sorted_same_key _ _ (0, 0)).
    apply Forall_forall. intros x (e & -> & [He _]%list_elem_of_filter)%list_elem_of_fmap.
    unfold HotelsService.sort_key. simpl. rewrite He.
    assert (HotelsService.positions [d] !! d = Some 0) as ->.
    { apply positions_Some. split; [done|]. intros [|q] Hq; [lia|done]. }
    done.
  - rewrite find_in_Ok by (by left).
    assert (filter (passes [h] []) hotels
            = filter (fun e => HotelsService.id e = h) hotels) as ->.
    { apply list_filter_iff. intros e. unfold passes.
      rewrite list_elem_of_singleton. split; [by intros [[?|?] _]|].
      intros ?. split; [by left|by right]. }
    f_equal. apply (sorted_same_key _ _ (0, 0)).
    apply Forall_forall. intros x (e & -> & [He _]%list_elem_of_filter)%list_elem_of_fmap.
    unfold HotelsService.sort_key. simpl. rewrite He.
    assert (HotelsService.positions [h] !! h = Some 0) as ->.
    { apply positions_Some. split; [done|]. intros [|q] Hq; [lia|done]. }
    done.
Qed.

Lemma NoDup_map_filter {A B} (f : A → B) (Q : A → Prop) `{∀ a, Decision (Q a)}
    (xs : list A) :
  NoDup (map f xs) → NoDup (map f (filter Q xs)).
Proof.
  induction xs as [|a xs IH]; simpl; [done|].
  intros [Ha Hxs]%NoDup_cons. rewrite filter_cons. case_decide; [|by apply IH].
  simpl. apply NoDup_cons. split; [|by apply IH].
  intros (b & E & [_ Hb]%list_elem_of_filter)%(list_elem_of_fmap_1 f).
  apply Ha. apply list_elem_of_fmap. by exists b.
Qed.

Lemma StronglySorted_filter {A} (R : relation A) (Q : A → Prop)
    `{∀ a, Decision (Q a)} (xs : list A) :
  StronglySorted R xs → StronglySorted R (filter Q xs).
Proof.
  induction 1 as [|a xs Hxs IH Ha]; [constructor|].
  rewrite filter_cons. case_decide; [|done].
  constructor; [done|]. apply Forall_forall.
  intros b [_ Hb]%list_elem_of_filter. rewrite Forall_forall in Ha. by apply Ha.
Qed.

Lemma StronglySorted_lookup_2 {A} (R : relation A) (xs : list A) :
  (∀ i j a b, i < j → xs !! i = Some a → xs !! j = Some b → R a b) →
  StronglySorted R xs.
Proof.
  induction xs as [|a xs IH]; intros Hlt; [constructor|].
  constructor.
  - apply IH. intros i j u v Hij Hu Hv. by apply (Hlt (S i) (S j) u v); [lia|..].
  - apply Forall_lookup. intros j b Hb. by apply (Hlt 0 (S j) a b); [lia|..].
Qed.

(** A list that repeats nothing is in the order of its own positions. *)
Lemma positions_ascending l :
  NoDup l →
  StronglySorted
    (fun a b => default 0 (HotelsService.positions l !! a)
                ≤ default 0 (HotelsService.positions l !! b)) l.
Proof.
  intros Hl. apply StronglySorted_lookup_2. intros i j a b Hij Ha Hb.
  apply (positions_NoDup l a i Hl) in Ha. apply (positions_NoDup l b j Hl) in Hb.
  rewrite Ha, Hb. simpl. lia.
Qed.

Lemma to_records_id hotels :
  map HotelsService.id (HotelsService.to_records reencode hotels)
  = map HotelsService.id hotels.
Proof. unfold HotelsService.to_records. rewrite map_map. done. Qed.

(** X19.  When the requested ids repeat no id and the catalog holds one
    record per id, the ids of the answer are the requested ids that a
    passing record of the catalog carries, in the order of the request. *)
Theorem find_follows_request hotels hl dl ret :
  hotels ≠ [] →
  NoDup hl → hl ≠ [] →
  NoDup (map HotelsService.id hotels) →
  HotelsService.find_in reencode hotels hl dl = Ok ret →
  map HotelsService.id ret
  = filter (fun h => h ∈ map HotelsService.id (filter (passes hl dl) hotels)) hl.
Proof.
  intros _ Hhl Hne Hids. rewrite find_in_Ok by (by left). intros [= <-].
  set (key := HotelsService.sort_key _ _).
  set (pos := fun h => default 0 (HotelsService.positions hl !! h)).
  set (have := map HotelsService.id (filter (passes hl dl) hotels)).
  assert (map HotelsService.id
            (HotelsService.sorted key
               (HotelsService.to_records reencode (filter (passes hl dl) hotels)))
          ≡ₚ have) as Hperm.
  { rewrite sorted_Permutation. by rewrite to_records_id. }
  assert (∀ h, h ∈ have → h ∈ hl) as Hin.
  { intros h (e & -> & [[[?|?] _] _]%list_elem_of_filter)%list_elem_of_fmap; done. }
  apply (StronglySorted_unique_strong (fun a b => pos a ≤ pos b)).
  - intros a b Ha Hb Hab Hba.
    rewrite Hperm in Ha. apply Hin in Ha.
    apply list_elem_of_filter in Hb as [_ Hb].
    apply list_elem_of_lookup in Ha as [i Hi]. apply list_elem_of_lookup in Hb as [j Hj].
    pose proof Hi as Hi'. pose proof Hj as Hj'.
    apply (positions_NoDup hl a i Hhl) in Hi'. apply (positions_NoDup hl b j Hhl) in Hj'.
    unfold pos in Hab, Hba. rewrite Hi', Hj' in Hab, Hba. simpl in Hab, Hba.
    assert (i = j) as -> by lia. congruence.
  - apply (StronglySorted_fmap HotelsService.id (fun u v => pair_le (key u) (key v)));
      [|apply sorted_sorted].
    intros u v. unfold pair_le, key, pos, HotelsService.sort_key. simpl. lia.
  - apply StronglySorted_filter. by apply positions_ascending.
  - apply NoDup_Permutation.
    + rewrite Hperm. by apply NoDup_map_filter.
    + by apply NoDup_filter.
    + intros h. rewrite Hperm, list_elem_of_filter. split; [auto|by intros [? _]].
Qed.

End FindOrder.

(** X16, witness: the second requested id is sorted by its position 1. *)
Lemma find_key_is_position_witness :
  is_position ["H2"; "H1"] "H1"
    (fst (HotelsService.sort_key (HotelsService.positions ["H2"; "H1"])
            (HotelsService.positions [])
            (HotelsService.mkEntry "H1" "D1" ()))).
Proof.
  apply (proj1 (find_key_is_position (fun p : unit => p)
                  [HotelsService.mkEntry "H1" "D1" (); HotelsService.mkEntry "H2" "D2" ()]
                  ["H2"; "H1"] []
                  [HotelsService.mkEntry "H2" "D2" (); HotelsService.mkEntry "H1" "D1" ()]
                  (HotelsService.mkEntry "H1" "D1" ())
                  eq_refl ltac:(do 2 constructor))).
  discriminate.
Defined.

(** X17, witness: an id the catalog does not have. *)
Lemma find_no_match_witness :
  HotelsService.find_in (fun p : unit => p)
    [HotelsService.mkEntry "H1" "D1" ()] ["H9"] [] = Ok [].
Proof.
  apply find_no_match; [discriminate|]. left. split; [discriminate|].
  constructor; [|constructor]. simpl.
  apply (bool_decide_eq_false_1 ("H1" ∈ ["H9"])). reflexivity.
Defined.

(** X18, witness: two hotels of one destination and one of another. *)
Lemma find_single_filter_witness :
  HotelsService.find_in (fun p : unit => p)
    [HotelsService.mkEntry "H1" "D1" (); HotelsService.mkEntry "H2" "D2" ();
     HotelsService.mkEntry "H3" "D1" ()] [] ["D1"]
  = Ok [HotelsService.mkEntry "H1" "D1" (); HotelsService.mkEntry "H3" "D1" ()].
Proof.
  apply (proj1 (find_single_filter (fun p : unit => p)
                  [HotelsService.mkEntry "H1" "D1" (); HotelsService.mkEntry "H2" "D2" ();
                   HotelsService.mkEntry "H3" "D1" ()] "H1" "D1" ltac:(discriminate))).
Defined.

(** X19, witness: three hotels, two of them requested in reverse order
    together with an id the catalog does not have. *)
Lemma find_follows_request_witness :
  map HotelsService.id
    [HotelsService.mkEntry "H3" "D1" (); HotelsService.mkEntry "H1" "D1" ()]
  = filter
      (fun h => h ∈ map HotelsService.id
                      (filter (passes ["H3"; "H9"; "H1"] [])
                         [HotelsService.mkEntry "H1" "D1" ();
                          HotelsService.mkEntry "H2" "D2" ();
                          HotelsService.mkEntry "H3" "D1" ()]))
      ["H3"; "H9"; "H1"].
Proof.
  apply (find_follows_request (fun p : unit => p)).
  - discriminate.
  - apply (bool_decide_eq_true_1 (NoDup ["H3"; "H9"; "H1"])). reflexivity.
  - discriminate.
  - apply (bool_decide_eq_true_1 (NoDup ["H1"; "H2"; "H3"])). reflexivity.
  - reflexivity.
Defined.

(** ** More about the reducers *)

Section ImagesMore.

Implicit Types (l a b : list ImageRef) (seen : gset string) (e : ImageRef)
  (df : list (option (gmap string (list ImageRef)))).

Lemma unseen_app seen a b :
  unseen seen (a ++ b)
  = unseen seen a ++ unseen (list_to_set (link <$> a) ∪ seen) b.
Proof.
  revert seen. induction a as [|e a IH]; intros seen; simpl.
  - f_equal. set_solver.
  - destruct (decide (link e ∈ seen)) as [He|He].
    + rewrite IH. do 2 f_equal. set_solver.
    + rewrite IH. simpl. do 3 f_equal. set_solver.
Qed.

Lemma unseen_unseen seen seen' l :
  seen' ⊆ seen → unseen seen (unseen seen' l) = unseen seen l.
Proof.
  revert seen seen'. induction l as [|e l IH]; intros seen seen' Hsub; simpl; [done|].
  destruct (decide (link e ∈ seen')) as [He'|He'].
  - destruct (decide (link e ∈ seen)) as [He|He]; [by apply IH|set_solver].
  - simpl. destruct (decide (link e ∈ seen)) as [He|He].
    + apply IH. set_solver.
    + f_equal. apply IH. set_solver.
Qed.

Lemma unseen_links seen l :
  list_to_set (link <$> unseen seen l) ∪ seen
  = (list_to_set (link <$> l) ∪ seen : gset string).
Proof.
  revert seen. induction l as [|e l IH]; intros seen; [done|].
  cbn [unseen]. rewrite (fmap_cons link e l), list_to_set_cons.
  destruct (decide (link e ∈ seen)) as [He|He].
  - rewrite IH. set_solver.
  - rewrite fmap_cons, list_to_set_cons.
    apply set_eq. intros x.
    pose proof (proj1 (set_eq _ _) (IH ({[link e]} ∪ seen)) x) as Hx.
    rewrite !elem_of_union in Hx. rewrite !elem_of_union. tauto.
Qed.

Lemma first_seen_app a b :
  HotelsService.first_seen (HotelsService.first_seen a ++ HotelsService.first_seen b)
  = HotelsService.first_seen (a ++ b).
Proof.
  rewrite !first_seen_unseen, !unseen_app.
  rewrite (unseen_unseen ∅ ∅) by done.
  rewrite (unseen_unseen _ ∅) by set_solver.
  by rewrite unseen_links.
Qed.

Lemma first_seen_idem l :
  HotelsService.first_seen (HotelsService.first_seen l) = HotelsService.first_seen l.
Proof. rewrite !first_seen_unseen. by apply unseen_unseen. Qed.

Lemma images_column_app f df df' :
  HotelsService.images_column f (df ++ df')
  = HotelsService.images_column f df ++ HotelsService.images_column f df'.
Proof. unfold HotelsService.images_column. by rewrite map_app, concat_app. Qed.

Lemma merge_images_lookup df f :
  f ∈ fields_Images →
  HotelsService.merge_images df !! f
  = Some (HotelsService.first_seen (HotelsService.images_column f df)).
Proof.
  intros Hf. rewrite merge_images_unfold.
  repeat (apply elem_of_cons in Hf as [->|Hf]); [..|by apply elem_of_nil in Hf];
    by simplify_map_eq.
Qed.

Lemma images_column_merged f df df' :
  f ∈ fields_Images →
  HotelsService.images_column f
    [Some (HotelsService.merge_images df); Some (HotelsService.merge_images df')]
  = HotelsService.first_seen (HotelsService.images_column f df)
    ++ HotelsService.first_seen (HotelsService.images_column f df').
Proof.
  intros Hf. unfold HotelsService.images_column at 1. simpl.
  rewrite !merge_images_lookup by done. simpl. by rewrite app_nil_r.
Qed.

Lemma images_column_merged_once f df :
  f ∈ fields_Images →
  HotelsService.images_column f [Some (HotelsService.merge_images df)]
  = HotelsService.first_seen (HotelsService.images_column f df).
Proof.
  intros Hf. unfold HotelsService.images_column at 1. simpl.
  rewrite !merge_images_lookup by done. simpl. by rewrite app_nil_r.
Qed.

(** X20.  Merging images can be done in stages: merging the merged images
    of two groups of rows gives what merging all the rows at once gives,
    entry for entry; in particular merging merged images again changes
    nothing. *)
Theorem merge_images_in_stages df df' :
  HotelsService.merge_images
    [Some (HotelsService.merge_images df); Some (HotelsService.merge_images df')]
  = HotelsService.merge_images (df ++ df')
  ∧ HotelsService.merge_images [Some (HotelsService.merge_images df)]
    = HotelsService.merge_images df.
Proof.
  split.
  - rewrite (merge_images_unfold [_; _]), (merge_images_unfold (df ++ df')).
    rewrite !images_column_merged, !images_column_app, !first_seen_app; [done|..];
      unfold fields_Images; set_solver.
  - rewrite (merge_images_unfold [_]).
    rewrite !images_column_merged_once by (unfold fields_Images; set_solver).
    by rewrite !first_seen_idem, (merge_images_unfold df).
Qed.

Lemma images_column_is_Some f df :
  HotelsService.images_column f (filter is_Some df) = HotelsService.images_column f df.
Proof.
  unfold HotelsService.images_column.
  induction df as [|[d|] df IH]; [done|..].
  - rewrite filter_cons_True by done. simpl. by rewrite IH.
  - rewrite filter_cons_False by (by intros [? ?]). simpl. by rewrite IH.
Qed.

Lemma unseen_NoDup_id seen l :
  NoDup (link <$> l) → (∀ e, e ∈ l → link e ∉ seen) → unseen seen l = l.
Proof.
  revert seen. induction l as [|e l IH]; intros seen Hl Hs; simpl; [done|].
  rewrite fmap_cons in Hl. apply NoDup_cons in Hl as [He Hl].
  destruct (decide (link e ∈ seen)) as [Hin|_].
  - exfalso. apply (Hs e); [left|done].
  - f_equal. apply IH; [done|]. intros x Hx.
    apply not_elem_of_union. split; [|apply Hs; by right].
    intros E%elem_of_singleton. apply He. apply list_elem_of_fmap. by exists x.
Qed.

(** X21.  The merged images always have the three categories and nothing
    else; rows without images count for nothing, so that with no usable row
    every category is empty; and a single row whose lists repeat no link is
    given back as it is, an absent category as the empty list. *)
Theorem merge_images_shape df :
  dom (HotelsService.merge_images df) = list_to_set fields_Images
  ∧ HotelsService.merge_images (filter is_Some df) = HotelsService.merge_images df
  ∧ (Forall (fun i => i = None) df →
     Forall (fun f => HotelsService.merge_images df !! f = Some []) fields_Images)
  ∧ (∀ d, df = [Some d] →
       (∀ f l, d !! f = Some l → NoDup (link <$> l)) →
       Forall (fun f => HotelsService.merge_images df !! f = Some (default [] (d !! f)))
         fields_Images).
Proof.
  split; [|split; [|split]].
  - rewrite merge_images_unfold, !dom_insert_L. unfold fields_Images. set_solver.
  - rewrite !merge_images_unfold. by rewrite !images_column_is_Some.
  - intros Hnone. apply Forall_forall. intros f Hf.
    rewrite merge_images_lookup by done. do 2 f_equal.
    unfold HotelsService.images_column.
    induction Hnone as [|i df -> _ IH]; [done|]. simpl. apply IH.
  - intros d -> Hd. apply Forall_forall. intros f Hf.
    rewrite merge_images_lookup by done. f_equal.
    unfold HotelsService.images_column. simpl. rewrite app_nil_r.
    rewrite first_seen_unseen. destruct (d !! f) as [l|] eqn:E; simpl; [|done].
    apply unseen_NoDup_id; [by apply (Hd f)|]. intros; set_solver.
Qed.

End ImagesMore.

(** X21, witness: one row with two room images. *)
Lemma merge_images_shape_witness :
  HotelsService.merge_images
    [Some {["rooms" := [mkImageRef "https://d2ey9sqrvkqdfs.cloudfront.net/0qZF/2.jpg"
                          (VStr "Double room");
                        mkImageRef "https://d2ey9sqrvkqdfs.cloudfront.net/0qZF/3.jpg"
                          (VStr "Double room")]]}]
    !! "rooms"
  = Some [mkImageRef "https://d2ey9sqrvkqdfs.cloudfront.net/0qZF/2.jpg" (VStr "Double room");
          mkImageRef "https://d2ey9sqrvkqdfs.cloudfront.net/0qZF/3.jpg" (VStr "Double room")].
Proof.
  refine (Forall_inv
            (proj2 (proj2 (proj2 (merge_images_shape _))) _ eq_refl _)).
  intros f l [_ <-]%lookup_singleton_Some.
  apply (bool_decide_eq_true_1
           (NoDup ["https://d2ey9sqrvkqdfs.cloudfront.net/0qZF/2.jpg";
                   "https://d2ey9sqrvkqdfs.cloudfront.net/0qZF/3.jpg"])).
  reflexivity.
Defined.

Section AmenitiesMore.
Context `{SetOrder}.

Implicit Types (df : list (gmap string (list string))) (l : list string).

Lemma amenities_column_app f df df' :
  HotelsService.amenities_column f (df ++ df')
  = HotelsService.amenities_column f df ++ HotelsService.amenities_column f df'.
Proof. unfold HotelsService.amenities_column. by rewrite map_app, concat_app. Qed.

Lemma amenities_column_elem f df x :
  x ∈ HotelsService.amenities_column f df
  ↔ ∃ i l, i ∈ df ∧ i !! f = Some l ∧ x ∈ l.
Proof.
  unfold HotelsService.amenities_column. rewrite list_elem_of_In, in_concat. split.
  - intros (l & (i & <- & Hi%list_elem_of_In)%in_map_iff & Hx%list_elem_of_In).
    destruct (i !! f) as [l|] eqn:E; [|by apply elem_of_nil in Hx].
    by exists i, l.
  - intros (i & l & Hi & E & Hx). exists l. split; [|by apply list_elem_of_In].
    apply in_map_iff. exists i. rewrite E. split; [done|by apply list_elem_of_In].
Qed.

(** X22.  The merged amenities do not depend on the order of the rows,
    except for the order of the entries within a list: rows in another
    order give, for each key, a permutation of the same list. *)
Theorem merge_amenities_any_order df df' :
  df ≡ₚ df' →
  Forall (fun f =>
            ∃ merged merged',
              HotelsService.merge_amenities df !! f = Some merged
              ∧ HotelsService.merge_amenities df' !! f = Some merged'
              ∧ merged ≡ₚ merged')
         fields_Amenities.
Proof.
  intros Hperm. apply Forall_forall. intros f Hf. eexists _, _.
  split; [by apply merge_amenities_lookup|]. split; [by apply merge_amenities_lookup|].
  apply list_of_set_Permutation. intros x. rewrite !amenities_column_elem.
  by setoid_rewrite Hperm.
Qed.

(** X23.  Amenities can be merged in stages: merging the merged amenities
    of two groups of rows gives, for each key, the entries that merging all
    the rows at once gives; the result has the two keys general and room
    and no other; and a key that no row carries is merged to the empty
    list. *)
Theorem merge_amenities_in_stages df df' :
  Forall (fun f =>
            ∃ staged merged,
              HotelsService.merge_amenities
                [HotelsService.merge_amenities df; HotelsService.merge_amenities df'] !! f
              = Some staged
              ∧ HotelsService.merge_amenities (df ++ df') !! f = Some merged
              ∧ staged ≡ₚ merged)
         fields_Amenities
  ∧ dom (HotelsService.merge_amenities df) = list_to_set fields_Amenities
  ∧ Forall (fun f =>
              Forall (fun i => i !! f = None) df →
              HotelsService.merge_amenities df !! f = Some [])
           fields_Amenities.
Proof.
  split; [|split].
  - apply Forall_forall. intros f Hf. eexists _, _.
    split; [by apply merge_amenities_lookup|]. split; [by apply merge_amenities_lookup|].
    apply list_of_set_Permutation. intros x.
    unfold HotelsService.amenities_column at 1. simpl.
    rewrite !merge_amenities_lookup by done. simpl.
    rewrite app_nil_r, amenities_column_app, !elem_of_app, !list_of_set_elem. done.
  - rewrite merge_amenities_unfold, !dom_insert_L. unfold fields_Amenities. set_solver.
  - apply Forall_forall. intros f Hf Hnone.
    rewrite merge_amenities_lookup by done. f_equal.
    assert (HotelsService.amenities_column f df = []) as ->.
    { unfold HotelsService.amenities_column.
      induction Hnone as [|i df Hi _ IH]; [done|]. simpl. by rewrite Hi, IH. }
    destruct (list_of_set []) as [|x l] eqn:E; [done|].
    assert (x ∈ list_of_set []) as Hx by (rewrite E; left).
    apply (proj1 (list_of_set_elem [] x)) in Hx. by apply elem_of_nil in Hx.
Qed.

End AmenitiesMore.

(** X22, witness: two rows, swapped. *)
Lemma merge_amenities_any_order_witness :
  ∃ merged merged',
    @HotelsService.merge_amenities insertion_order
      [{["general" := ["pool"; "wifi"]]}; {["general" := ["bar"]]}] !! "general"
    = Some merged
    ∧ @HotelsService.merge_amenities insertion_order
        [{["general" := ["bar"]]}; {["general" := ["pool"; "wifi"]]}] !! "general"
      = Some merged'
    ∧ merged ≡ₚ merged'.
Proof.
  refine (Forall_inv
            (@merge_amenities_any_order insertion_order
               [{["general" := ["pool"; "wifi"]]}; {["general" := ["bar"]]}]
               [{["general" := ["bar"]]}; {["general" := ["pool"; "wifi"]]}] _)).
  apply Permutation_swap.
Defined.

(** X23, witness: a row without room amenities. *)
Lemma merge_amenities_in_stages_witness :
  @HotelsService.merge_amenities insertion_order [{["general" := ["pool"]]}] !! "room"
  = Some [].
Proof.
  refine (Forall_inv
            (Forall_inv_tail
               (proj2 (proj2 (@merge_amenities_in_stages insertion_order
                                [{["general" := ["pool"]]}] []))))
            _).
  by repeat constructor.
Defined.

Section LocationMore.

Implicit Types (df : list (gmap string value)) (d : value).

Lemma merge_location_lookup df d f :
  f ∈ fields_Location →
  HotelsService.merge_location df d !! f
  = Some (longest_content (HotelsService.location_column f df) d).
Proof.
  intros Hf. rewrite merge_location_unfold.
  repeat (apply elem_of_cons in Hf as [->|Hf]); [..|by apply elem_of_nil in Hf];
    by simplify_map_eq.
Qed.

(** X24.  The merged location always has the five sub-fields and nothing
    else.  With no row every sub-field is the default; a single row is
    given back as it is, a sub-field it lacks as the empty list; and with
    rows every merged sub-field is what one of the rows holds for it, the
    empty list where that row lacks it, so the default never shows. *)
Theorem merge_location_shape df d :
  dom (HotelsService.merge_location df d) = list_to_set fields_Location
  ∧ (df = [] →
     Forall (fun f => HotelsService.merge_location df d !! f = Some d) fields_Location)
  ∧ (∀ loc, df = [loc] →
       Forall (fun f =>
                 HotelsService.merge_location df d !! f
                 = Some (default (VList []) (loc !! f)))
              fields_Location)
  ∧ (df ≠ [] →
     Forall (fun f =>
               ∃ loc, loc ∈ df
                 ∧ HotelsService.merge_location df d !! f
                   = Some (default (VList []) (loc !! f)))
            fields_Location).
Proof.
  split; [|split; [|split]].
  - rewrite merge_location_unfold, !dom_insert_L. unfold fields_Location. set_solver.
  - intros ->. apply Forall_forall. intros f Hf. by rewrite merge_location_lookup.
  - intros loc ->. apply Forall_forall. intros f Hf.
    rewrite merge_location_lookup by done. f_equal.
    unfold HotelsService.location_column. simpl.
    rewrite longest_content_cons. simpl. apply longest_step_None.
  - intros Hne. apply Forall_forall. intros f Hf.
    rewrite merge_location_lookup by done.
    assert (HotelsService.location_column f df ≠ []) as Hcol by by destruct df.
    pose proof (longest_content_elem _ d Hcol) as Hin.
    apply list_elem_of_fmap in Hin as (loc & E & Hloc).
    exists loc. split; [done|]. by rewrite E.
Qed.

End LocationMore.

(** X24, witness: an address from one row and a country from another. *)
Lemma merge_location_shape_witness :
  ∃ loc,
    loc ∈ [location_dict (Location.mk VNone VNone (VStr "8 Sentosa Gateway") VNone VNone);
           location_dict (Location.mk VNone VNone VNone VNone (VStr "Singapore"))]
    ∧ HotelsService.merge_location
        [location_dict (Location.mk VNone VNone (VStr "8 Sentosa Gateway") VNone VNone);
         location_dict (Location.mk VNone VNone VNone VNone (VStr "Singapore"))]
        (VStr "unset") !! "lat"
      = Some (default (VList []) (loc !! "lat")).
Proof.
  refine (Forall_inv
            (proj2 (proj2 (proj2 (merge_location_shape _ (VStr "unset")))) _)).
  discriminate.
Defined.

(** ** Merging the suppliers' hotels *)

Section MergeAndSave.
Context `{SetOrder}.

Implicit Types (data : list Hotel.t) (df cur_df : list HotelRow.t) (h : Hotel.t)
  (r : HotelRow.t) (s : string) (m : gmap string cell).

Lemma as_text_Some v s : as_text v = Some s ↔ v = VStr s.
Proof. destruct v; simpl; split; intros E; by simplify_eq. Qed.

Lemma row_of_hotel_fields h r :
  row_of_hotel h = Some r →
  HotelRow.id r = Hotel.id h ∧ HotelRow.name r = Hotel.name h
  ∧ HotelRow.description r = Hotel.description h
  ∧ ∃ general room,
      as_text_list (Amenities.general (Hotel.amenities h)) = Some general
      ∧ as_text_list (Amenities.room (Hotel.amenities h)) = Some room
      ∧ HotelRow.amenities r = <["room" := room]> (<["general" := general]> ∅).
Proof.
  unfold row_of_hotel. intros Hr.
  destruct (as_text_list (Amenities.general _)) as [general|]; simpl in Hr; [|done].
  destruct (as_text_list (Amenities.room _)) as [room|]; simpl in Hr; [|done].
  repeat (match type of Hr with
          | context [mbind _ ?m] => destruct m; simpl in Hr; [|discriminate Hr]
          end).
  injection Hr as <-. simpl. repeat split; eauto.
Qed.

(** The rows with a given id, among the rows of the parsed hotels. *)
Lemma rows_with_id data df s r :
  Forall2 (fun h r => row_of_hotel h = Some r) data df →
  r ∈ filter (fun r => as_text (HotelRow.id r) = Some s) df
  ↔ ∃ h, h ∈ data ∧ Hotel.id h = VStr s ∧ row_of_hotel h = Some r.
Proof.
  intros Hrows. rewrite list_elem_of_filter, as_text_Some. split.
  - intros [Hid Hr]. apply list_elem_of_lookup in Hr as [i Hi].
    destruct (Forall2_lookup_r _ _ _ _ _ Hrows Hi) as (h & Hh & Hhr).
    exists h. split; [by eapply list_elem_of_lookup_2|].
    split; [|done]. by rewrite <- (proj1 (row_of_hotel_fields h r Hhr)).
  - intros (h & Hh & Hid & Hhr). split.
    + by rewrite (proj1 (row_of_hotel_fields h r Hhr)).
    + apply list_elem_of_lookup in Hh as [i Hi].
      destruct (Forall2_lookup_l _ _ _ _ _ Hrows Hi) as (r' & Hr' & Hhr').
      assert (r' = r) as -> by congruence. by eapply list_elem_of_lookup_2.
Qed.

Lemma merge_and_save_Some MISSING data :
  Forall (fun h => is_Some (row_of_hotel h) ∧ is_Some (as_text (Hotel.id h))) data →
  ∃ df ids,
    Forall2 (fun h r => row_of_hotel h = Some r) data df
    ∧ Forall2 (fun h s => Hotel.id h = VStr s) data ids
    ∧ merge_and_save MISSING data
      = Some (map (fun s =>
                     HotelsService.merge_hotel MISSING
                       (filter (fun r => as_text (HotelRow.id r) = Some s) df))
                (list_of_set ids)).
Proof.
  intros Hdata.
  assert (is_Some (mapM row_of_hotel data)) as [df Hdf].
  { apply mapM_is_Some. eapply Forall_impl; [exact Hdata|]. by intros h [? _]. }
  assert (is_Some (mapM (fun h => as_text (Hotel.id h)) data)) as [ids Hids].
  { apply mapM_is_Some. eapply Forall_impl; [exact Hdata|]. by intros h [_ ?]. }
  exists df, ids. unfold merge_and_save. rewrite Hdf, Hids. simpl.
  split; [by apply mapM_Some|]. split; [|done].
  apply mapM_Some in Hids. eapply Forall2_impl; [exact Hids|].
  intros h s. apply as_text_Some.
Qed.

Lemma ids_elem data ids s :
  Forall2 (fun h s => Hotel.id h = VStr s) data ids →
  s ∈ ids ↔ ∃ h, h ∈ data ∧ Hotel.id h = VStr s.
Proof.
  intros Hids. split.
  - intros [i Hi]%list_elem_of_lookup.
    destruct (Forall2_lookup_r _ _ _ _ _ Hids Hi) as (h & Hh & E).
    exists h. split; [by eapply list_elem_of_lookup_2|done].
  - intros (h & [i Hi]%list_elem_of_lookup & E).
    destruct (Forall2_lookup_l _ _ _ _ _ Hids Hi) as (s' & Hs' & E').
    assert (s' = s) as -> by congruence. by eapply list_elem_of_lookup_2.
Qed.

(** The merged id of the rows with id [s] is [s]. *)
Lemma merge_hotel_id MISSING cur_df s :
  cur_df ≠ [] → Forall (fun r => HotelRow.id r = VStr s) cur_df →
  HotelsService.merge_hotel MISSING cur_df !! "id" = Some (CScalar (VStr s)).
Proof.
  intros Hne Hall. rewrite merge_hotel_scalar by left. do 2 f_equal.
  assert (HotelsService.scalar_column "id" cur_df ≠ []) as Hcol by by destruct cur_df.
  pose proof (longest_content_elem _ MISSING Hcol) as Hin.
  apply list_elem_of_fmap in Hin as (r & -> & Hr).
  rewrite Forall_forall in Hall. by apply Hall.
Qed.

(** X25.  When every parsed hotel has a text id (and a row the reducers can
    read), merging gives one merged hotel for each distinct id and no other:
    the ids of the merged hotels are texts, no two are the same, and they
    are the ids the suppliers sent; and every merged hotel has the eight
    fields of a hotel and no other. *)
Theorem merge_and_save_one_per_id MISSING data :
  Forall (fun h => is_Some (row_of_hotel h) ∧ is_Some (as_text (Hotel.id h))) data →
  ∃ hotels ids,
    merge_and_save MISSING data = Some hotels
    ∧ map (fun m => m !! "id") hotels = map (fun s => Some (CScalar (VStr s))) ids
    ∧ NoDup ids
    ∧ (∀ s, s ∈ ids ↔ ∃ h, h ∈ data ∧ Hotel.id h = VStr s)
    ∧ Forall (fun m => dom m = list_to_set fields_Hotel) hotels.
Proof.
  intros Hdata.
  destruct (merge_and_save_Some MISSING data Hdata) as (df & ids & Hrows & Hids & E).
  eexists _, (list_of_set ids). split; [exact E|].
  split; [|split; [apply list_of_set_NoDup|split]]; cycle 2.
  { apply Forall_forall. intros m (s & -> & _)%list_elem_of_fmap.
    rewrite merge_hotel_unfold, !dom_insert_L. unfold fields_Hotel. set_solver. }
  - rewrite map_map. apply map_ext_in. intros s Hs%list_elem_of_In.
    apply list_of_set_elem, (ids_elem data ids s Hids) in Hs as (h & Hh & Hid).
    rewrite Forall_forall in Hdata. destruct (Hdata h Hh) as [[r Hr] _].
    apply merge_hotel_id.
    + assert (r ∈ filter (fun r => as_text (HotelRow.id r) = Some s) df) as Hin
        by (apply (rows_with_id data); [done|by exists h]).
      intros E0. rewrite E0 in Hin. by apply elem_of_nil in Hin.
    + apply Forall_forall. intros r' [Hr' _]%list_elem_of_filter.
      by apply as_text_Some.
  - intros s. rewrite list_of_set_elem. by apply ids_elem.
Qed.

Lemma merge_and_save_inv MISSING data hotels :
  merge_and_save MISSING data = Some hotels →
  Forall (fun h => is_Some (row_of_hotel h) ∧ is_Some (as_text (Hotel.id h))) data.
Proof.
  unfold merge_and_save. intros E.
  destruct (mapM row_of_hotel data) as [df|] eqn:Hdf; simpl in E; [|done].
  destruct (mapM (fun h => as_text (Hotel.id h)) data) as [ids|] eqn:Hids;
    simpl in E; [|done].
  assert (is_Some (mapM row_of_hotel data)) as H1%mapM_is_Some by by rewrite Hdf.
  assert (is_Some (mapM (fun h => as_text (Hotel.id h)) data)) as H2%mapM_is_Some
    by by rewrite Hids.
  apply Forall_and. split; [exact H1|exact H2].
Qed.

Lemma merged_amenities_own data df s f x (pick : Amenities.t → value) :
  Forall2 (fun h r => row_of_hotel h = Some r) data df →
  (∀ h r, row_of_hotel h = Some r →
          Some <$> as_text_list (pick (Hotel.amenities h)) = Some (HotelRow.amenities r !! f)) →
  x ∈ HotelsService.amenities_column f
        (map HotelRow.amenities (filter (fun r => as_text (HotelRow.id r) = Some s) df))
  ↔ ∃ h l, h ∈ data ∧ Hotel.id h = VStr s
      ∧ as_text_list (pick (Hotel.amenities h)) = Some l ∧ x ∈ l.
Proof.
  intros Hrows Hpick. rewrite amenities_column_elem. split.
  - intros (i & l & (r & -> & Hr)%list_elem_of_fmap & Hl & Hx).
    apply (rows_with_id data df s r Hrows) in Hr as (h & Hh & Hid & Hhr).
    exists h, l. split; [done|]. split; [done|]. split; [|done].
    specialize (Hpick h r Hhr). rewrite Hl in Hpick.
    destruct (as_text_list _); simpl in Hpick; congruence.
  - intros (h & l & Hh & Hid & Hl & Hx).
    rewrite Forall2_lookup in Hrows. apply list_elem_of_lookup in Hh as [i Hi].
    pose proof (Hrows i) as Hi'. rewrite Hi in Hi'.
    inversion Hi' as [h' r Hhr Eh Er|]; subst. symmetry in Er.
    exists (HotelRow.amenities r), l. split; [|split; [|done]].
    + apply list_elem_of_fmap. exists r. split; [done|].
      apply list_elem_of_filter. split; [|by eapply list_elem_of_lookup_2].
      apply as_text_Some. by rewrite (proj1 (row_of_hotel_fields h r Hhr)).
    + specialize (Hpick h r Hhr). rewrite Hl in Hpick. simpl in Hpick. congruence.
Qed.

(** X26.  A merged hotel is made of the records with its id and of no
    other: its name is the name one of them carries, and each of its
    amenity lists holds exactly the entries of the lists of those records. *)
Theorem merge_and_save_own_records MISSING data hotels m s :
  merge_and_save MISSING data = Some hotels →
  m ∈ hotels →
  m !! "id" = Some (CScalar (VStr s)) →
  (∃ h, h ∈ data ∧ Hotel.id h = VStr s
     ∧ m !! "name" = Some (CScalar (Hotel.name h)))
  ∧ (∃ a general room,
       m !! "amenities" = Some (CAmenities a)
       ∧ a !! "general" = Some general ∧ a !! "room" = Some room
       ∧ (∀ x, x ∈ general ↔
            ∃ h l, h ∈ data ∧ Hotel.id h = VStr s
              ∧ as_text_list (Amenities.general (Hotel.amenities h)) = Some l ∧ x ∈ l)
       ∧ (∀ x, x ∈ room ↔
            ∃ h l, h ∈ data ∧ Hotel.id h = VStr s
              ∧ as_text_list (Amenities.room (Hotel.amenities h)) = Some l ∧ x ∈ l)).
Proof.
  intros E Hm Hid.
  pose proof (merge_and_save_inv MISSING data hotels E) as Hdata.
  destruct (merge_and_save_Some MISSING data Hdata) as (df & ids & Hrows & Hids & E').
  rewrite E in E'. injection E' as ->.
  apply list_elem_of_fmap in Hm as (s' & -> & Hs').
  apply list_of_set_elem, (ids_elem data ids s' Hids) in Hs' as (h0 & Hh0 & Hid0).
  rewrite Forall_forall in Hdata. destruct (Hdata h0 Hh0) as [[r0 Hr0] _].
  set (cur_df := filter (fun r => as_text (HotelRow.id r) = Some s') df) in *.
  assert (r0 ∈ cur_df) as Hin0 by (apply (rows_with_id data); [done|by exists h0]).
  assert (cur_df ≠ []) as Hne.
  { intros E0. rewrite E0 in Hin0. by apply elem_of_nil in Hin0. }
  assert (s' = s) as ->.
  { rewrite (merge_hotel_id MISSING cur_df s') in Hid; [congruence|done|].
    apply Forall_forall. intros r' [Hr' _]%list_elem_of_filter. by apply as_text_Some. }
  split.
  - rewrite merge_hotel_scalar by (do 2 right; left).
    assert (HotelsService.scalar_column "name" cur_df ≠ []) as Hcol by by destruct cur_df.
    pose proof (longest_content_elem _ MISSING Hcol) as Hin.
    apply list_elem_of_fmap in Hin as (r & Er & Hr).
    apply (rows_with_id data df s r Hrows) in Hr as (h & Hh & Hhid & Hhr).
    exists h. split; [done|]. split; [done|]. rewrite Er. simpl.
    by rewrite (proj1 (proj2 (row_of_hotel_fields h r Hhr))).
  - eexists _, _, _. split; [rewrite merge_hotel_unfold; by simplify_map_eq|].
    split; [by apply merge_amenities_lookup; left|].
    split; [by apply merge_amenities_lookup; right; left|].
    split; intros x; rewrite list_of_set_elem.
    + apply (merged_amenities_own data df s "general" x Amenities.general Hrows).
      intros h r Hhr.
      destruct (row_of_hotel_fields h r Hhr) as (_ & _ & _ & g & ro & -> & _ & ->).
      by simplify_map_eq.
    + apply (merged_amenities_own data df s "room" x Amenities.room Hrows).
      intros h r Hhr.
      destruct (row_of_hotel_fields h r Hhr) as (_ & _ & _ & g & ro & _ & -> & ->).
      by simplify_map_eq.
Qed.

End MergeAndSave.

(** X25, witness: the two parsed samples carry the same id. *)
Lemma merge_and_save_one_per_id_witness :
  ∃ hotels ids,
    @merge_and_save insertion_order VNone parsed_samples = Some hotels
    ∧ map (fun m => m !! "id") hotels = map (fun s => Some (CScalar (VStr s))) ids
    ∧ NoDup ids
    ∧ (∀ s, s ∈ ids ↔ ∃ h, h ∈ parsed_samples ∧ Hotel.id h = VStr s)
    ∧ Forall (fun m => dom m = list_to_set fields_Hotel) hotels.
Proof.
  apply (@merge_and_save_one_per_id insertion_order VNone parsed_samples).
  apply Forall_cons. split; [split; eexists; reflexivity|].
  apply Forall_cons. split; [split; eexists; reflexivity|].
  apply Forall_nil_2.
Defined.

(** X26, witness: the merged hotel of the two parsed samples. *)
Lemma merge_and_save_own_records_witness :
  ∃ m h,
    @merge_and_save insertion_order VNone parsed_samples = Some [m]
    ∧ h ∈ parsed_samples ∧ Hotel.id h = VStr "iJhz"
    ∧ m !! "name" = Some (CScalar (Hotel.name h)).
Proof.
  eexists.
  destruct (proj1 (@merge_and_save_own_records insertion_order VNone parsed_samples
                     _ _ "iJhz" eq_refl (list_elem_of_here _ _) eq_refl))
    as (h & Hh & Hid & Hname).
  exists h. split; [reflexivity|]. split; [exact Hh|]. split; [exact Hid|exact Hname].
Defined.

(** ** A record the Acme adapter accepts *)

Section AcmeAccepts.

Lemma traverse_modify_texts (rs : list string) :
  traverse acme_amenities_modify_any (map VStr rs)
  = Ok (map (fun r => VStr (acme_amenities_modify r)) rs).
Proof.
  induction rs as [|r rs IH]; [done|]. simpl. simpl in IH. by rewrite IH.
Qed.

Lemma as_text_list_texts (g : string → string) (rs : list string) :
  as_text_list (VList (map (fun r => VStr (g r)) rs)) = Some (map g rs).
Proof. apply mapM_Some. induction rs; by constructor. Qed.

(** X27.  An Acme record that has its ten fields, a country the table
    knows and, for facilities, null or a list of texts is accepted: [parse]
    gives a hotel, its general amenities are the cleaned facilities in the
    order of the record (none for null), and the hotel has a row the
    reducers can read. *)
Theorem Acme_parse_accepts (countries_get : value → option string)
    (d : list (string * value)) (country : value) (country_name : string)
    (facilities : option (list string)) :
  Forall (fun k => is_Some (dict_get d k))
    ["Id"; "DestinationId"; "Name"; "Latitude"; "Longitude"; "Address"; "City";
     "Description"] →
  dict_get d "Country" = Some country →
  countries_get country = Some country_name →
  dict_get d "Facilities"
  = Some (match facilities with Some rs => VList (map VStr rs) | None => VNone end) →
  ∃ h, Acme.parse countries_get (VDict d) = Ok h
    ∧ as_text_list (Amenities.general (Hotel.amenities h))
      = Some (map acme_amenities_modify (default [] facilities))
    ∧ is_Some (row_of_hotel h).
Proof.
  intros Hk Hc Hn Hf. unfold Acme.parse.
  repeat (apply Forall_cons in Hk as [[? HE] Hk]; simpl; rewrite HE; simpl; clear HE).
  rewrite Hc. simpl. rewrite Hn. simpl. rewrite Hf. simpl.
  destruct facilities as [rs|]; simpl.
  - rewrite traverse_modify_texts. eexists. split; [done|].
    unfold row_of_hotel.
    cbn [Hotel.amenities Amenities.general Amenities.room Hotel.images
         Images.rooms Images.site Images.amenities].
    rewrite !as_text_list_texts. split; [done|]. by eexists.
  - eexists. split; [done|]. split; [done|]. by eexists.
Qed.

End AcmeAccepts.

(** X27, witness: the Acme sample. *)
Lemma Acme_parse_accepts_witness :
  ∃ h, Acme.parse sample_countries acme_sample = Ok h
    ∧ as_text_list (Amenities.general (Hotel.amenities h))
      = Some ["pool"; "business center"; "wifi"; "dry cleaning"]
    ∧ is_Some (row_of_hotel h).
Proof.
  apply (Acme_parse_accepts sample_countries _ (VStr "SG") "Singapore"
           (Some ["Pool"; "BusinessCenter"; "WiFi "; "DryCleaning"])).
  - repeat (apply Forall_cons; split; [by eexists|]). apply Forall_nil_2.
  - reflexivity.
  - reflexivity.
  - reflexivity.
Defined.
